(** * E-Commerce Sales Performance Dashboard: helpers and period wiring

    A shallow embedding of [lesson7_files/dashboard.py].

    Numbers.  The Python code computes with [int] and with binary64
    [float] values.  The three helpers, [fmt_compact], [trend_badge] and
    [make_y_ticks], are embedded in module [B64] on these numbers: a
    float is a [spec_float] of precision 53, every operation rounds as
    IEEE 754 and CPython do (one rounding per operation, [int / int]
    rounded once from the exact quotient, the [f] format rounding the
    exact binary value), and the exceptions of the source are results.
    The logarithm of the C library, whose last bit is not specified, is a
    parameter of [make_y_ticks].

    Outside [B64] a number is an exact rational ([Q]) and no operation
    rounds.  This reading carries the script around the helpers (columns,
    sums, means, selections) and those properties of the helpers that are
    about the branch taken, the sign and the no-data cases.  The undefined
    values the code tests for ([None], and NaN through [pd.isna]) are
    separate constructors there.

    Strings.  Python [str] values are embedded as [string]; the three
    non-ASCII characters of the source (em dash, up arrow, down arrow) are
    their UTF-8 bytes. *)

From Stdlib Require Import ZArith QArith Qround Qabs Qpower Lia Lqa Bool.
From Stdlib Require Import String Ascii List DecimalString.
From Stdlib Require Import Sorted SpecFloat.
Import ListNotations.

Local Open Scope string_scope.

(** ** Python's fixed-point formatting, [format(x, ".<d>f")] *)

Module Fmt.

(** [x < y] as a boolean. *)
Definition Qltb (x y : Q) : bool :=
  match (x ?= y)%Q with Lt => true | _ => false end.

(** [x % 1] on a Python number: the fractional part, in [0, 1). *)
Definition py_mod1 (x : Q) : Q := (x - inject_Z (Qfloor x))%Q.

(** Rounding to the nearest integer, ties to the even neighbour, as the
    [f] presentation type does on the exact value it is given. *)
Definition round_half_even (x : Q) : Z :=
  let f := Qfloor x in
  match (py_mod1 x ?= 1 # 2)%Q with
  | Lt => f
  | Gt => (f + 1)%Z
  | Eq => if Z.even f then f else (f + 1)%Z
  end.

Definition digit_char (d : Z) : ascii := ascii_of_nat (48 + Z.to_nat d).

(** The [w] low decimal digits of [n], most significant first. *)
Fixpoint digits_fixed (w : nat) (n : Z) : string :=
  match w with
  | O => ""
  | S w' => digits_fixed w' (n / 10) ++ String (digit_char (n mod 10)) ""
  end.

(** Decimal numeral of a natural number, without leading zeros. *)
Definition show_nat (n : Z) : string :=
  NilZero.string_of_uint (N.to_uint (Z.to_N n)).

(** [format(x, ".<d>f")]: sign, integer digits and, when [d > 0], a point
    and exactly [d] fractional digits. *)
Definition format_f (d : nat) (x : Q) : string :=
  let p := (10 ^ Z.of_nat d)%Z in
  let n := round_half_even (Qabs x * inject_Z p) in
  (if Qltb x 0 then "-" else "")
    ++ show_nat (n / p)
    ++ match d with
       | O => ""
       | S _ => "." ++ digits_fixed d (n mod p)
       end.

End Fmt.

(** ** Helpers of the dashboard *)

(** [fmt_compact] on exact rationals: a dollar value as [$2M], [$1.5M],
    [$300K], [$45]. *)
Definition fmt_compact (v : Q) : string :=
  if Qle_bool 1000000 (Qabs v) then
    let m := (v / 1000000)%Q in
    if negb (Qeq_bool (Fmt.py_mod1 m) 0)
    then "$" ++ Fmt.format_f 1 m ++ "M"
    else "$" ++ Fmt.format_f 0 m ++ "M"
  else if Qle_bool 1000 (Qabs v) then
    let k := (v / 1000)%Q in
    "$" ++ Fmt.format_f 0 k ++ "K"
  else
    "$" ++ Fmt.format_f 0 v.

(** A scalar handed to [trend_badge]: [None], a float NaN, or a number. *)
Inductive pyval : Type :=
| PyNone
| PyNaN
| PyNum (q : Q).

(** The double-quote character of the HTML attributes. *)
Definition dquote : string := String (ascii_of_nat 34) "".

(** [<span style="color:COLOR">BODY</span>]. *)
Definition span (color body : string) : string :=
  "<span style=" ++ dquote ++ "color:" ++ color ++ dquote ++ ">"
    ++ body ++ "</span>".

(** The neutral badge returned when there is nothing to compare. *)
Definition no_data_badge : string := span "#6b7280" "—".

(** Line 131 on exact rationals: the percentage change of [current]
    against [previous]. *)
Definition pct_change (current previous : Q) : Q :=
  ((current - previous) / Qabs previous * 100)%Q.

(** [trend_badge] on exact rationals: an HTML span with a coloured
    directional indicator. *)
Definition trend_badge (current previous : pyval) (lower_is_better : bool)
  : string :=
  match previous with
  | PyNone | PyNaN => no_data_badge
  | PyNum p =>
      if Qeq_bool p 0 then no_data_badge
      else
        match current with
        | PyNone | PyNaN => no_data_badge
        | PyNum c =>
            let pct := pct_change c p in
            let positive_outcome :=
              if lower_is_better then Fmt.Qltb pct 0 else Fmt.Qltb 0 pct in
            let color := if positive_outcome then "#16a34a" else "#dc2626" in
            let arrow := if Fmt.Qltb 0 pct then "↑" else "↓" in
            span color (arrow ++ " " ++ Fmt.format_f 2 (Qabs pct) ++ "%")
        end
  end.

(** Exceptions the helpers can raise. *)
Inductive exn : Type :=
| ZeroDivisionError
| ValueError
| OverflowError.

Inductive result (A : Type) : Type :=
| Ok (a : A)
| Raise (e : exn).
Arguments Ok {A} a.
Arguments Raise {A} e.

(** The floor of the exact decimal logarithm of [x > 0]: the exponent [e]
    with [10^e <= x < 10^(e+1)], found by counting up from [0] when
    [x >= 1] and down from [-1] otherwise.  The bit sizes of the numerator and of
    the denominator bound the number of steps. *)
Fixpoint log10_up (fuel : nat) (x : Q) (e : Z) : Z :=
  match fuel with
  | O => e
  | S f => if Qle_bool (10 ^ (e + 1)) x then log10_up f x (e + 1) else e
  end.

Fixpoint log10_down (fuel : nat) (x : Q) (e : Z) : Z :=
  match fuel with
  | O => e
  | S f => if Qle_bool (10 ^ e) x then e else log10_down f x (e - 1)
  end.

Definition floor_log10 (x : Q) : Z :=
  if Qle_bool 1 x
  then log10_up (Pos.size_nat (Z.to_pos (Qnum x))) x 0
  else log10_down (Pos.size_nat (Qden x)) x (-1).

(** [range(n)]. *)
Definition range (n : Z) : list Z := map Z.of_nat (seq 0 (Z.to_nat n)).

(** The default tick count of [make_y_ticks]. *)
Definition default_n : Z := 5.

(** ** The helpers on binary64 numbers *)

Module B64.

(** Binary64: 53 bits of precision, exponents below 1024. *)
Definition prec : Z := 53.
Definition emax : Z := 1024.

(** A Python number handed to a helper: an [int] or a [float].  A numpy
    scalar is read as the [int] or [float] of the same value. *)
Inductive num : Type :=
| Int (z : Z)
| Float (f : spec_float).

Definition bind {A B : Type} (r : result A) (k : A -> result B) : result B :=
  match r with
  | Ok a => k a
  | Raise e => Raise e
  end.

Notation "x <- r ;; k" := (bind r (fun x => k))
  (at level 61, r at next level, right associativity).

Fixpoint mapM {A B : Type} (f : A -> result B) (l : list A)
  : result (list B) :=
  match l with
  | [] => Ok []
  | a :: t => b <- f a ;; bs <- mapM f t ;; Ok (b :: bs)
  end.

(** [float(z)]: the nearest double, ties to even, an infinity when [z] is
    beyond the doubles. *)
Definition of_Z (z : Z) : spec_float := binary_normalize prec emax z 0 false.

(** An integer as an operand of [int / int], which CPython rounds once,
    from the exact quotient. *)
Definition exact_of_Z (z : Z) : spec_float :=
  match z with
  | Z0 => S754_zero false
  | Zpos p => S754_finite false p 0
  | Zneg p => S754_finite true p 0
  end.

(** The double that the literal [m]e[e] denotes: [decimal 12 (-2)] is the
    double of [0.12]. *)
Definition decimal (m e : Z) : spec_float :=
  if (0 <=? e)%Z then of_Z (m * 10 ^ e)
  else SFdiv prec emax (exact_of_Z m) (exact_of_Z (10 ^ (- e))).

Definition is_infinite (f : spec_float) : bool :=
  match f with
  | S754_infinity _ => true
  | _ => false
  end.

Definition float_is_zero (f : spec_float) : bool :=
  match f with
  | S754_zero _ => true
  | _ => false
  end.

(** [pd.isna] on a number: true on a float NaN only. *)
Definition is_nan (x : num) : bool :=
  match x with
  | Float S754_nan => true
  | _ => false
  end.

(** The conversion of an operand to [float] in mixed arithmetic, which
    raises on an [int] beyond the doubles. *)
Definition to_float (x : num) : result spec_float :=
  match x with
  | Float f => Ok f
  | Int z => let f := of_Z z in
             if is_infinite f then Raise OverflowError else Ok f
  end.

(** The exact value [m * 2^e] of a finite double, without its sign. *)
Definition magnitude_of (m : positive) (e : Z) : Q :=
  (inject_Z (Zpos m) * 2 ^ e)%Q.

(** The value of a number: NaN, an infinity, or an exact rational. *)
Inductive ext : Type :=
| NaN
| Inf (negative : bool)
| Fin (q : Q).

Definition ext_of (x : num) : ext :=
  match x with
  | Int z => Fin (inject_Z z)
  | Float S754_nan => NaN
  | Float (S754_infinity s) => Inf s
  | Float (S754_zero _) => Fin 0
  | Float (S754_finite s m e) =>
      Fin (if s then - magnitude_of m e else magnitude_of m e)
  end.

(** Comparisons go by value, also between an [int] and a [float]; every
    comparison with NaN is false. *)
Definition ext_lt (a b : ext) : bool :=
  match a, b with
  | NaN, _ | _, NaN => false
  | Inf true, Inf true => false
  | Inf true, _ => true
  | _, Inf true => false
  | Inf false, _ => false
  | Fin _, Inf false => true
  | Fin x, Fin y => Fmt.Qltb x y
  end.

Definition ext_eq (a b : ext) : bool :=
  match a, b with
  | Inf s, Inf t => Bool.eqb s t
  | Fin x, Fin y => Qeq_bool x y
  | _, _ => false
  end.

Definition lt (x y : num) : bool := ext_lt (ext_of x) (ext_of y).
Definition gt (x y : num) : bool := lt y x.
Definition eq (x y : num) : bool := ext_eq (ext_of x) (ext_of y).
Definition le (x y : num) : bool := lt x y || eq x y.
Definition ge (x y : num) : bool := le y x.

Definition abs (x : num) : num :=
  match x with
  | Int z => Int (Z.abs z)
  | Float f => Float (SFabs f)
  end.

(** Unary minus. *)
Definition neg (x : num) : num :=
  match x with
  | Int z => Int (- z)
  | Float f => Float (SFopp f)
  end.

(** [x - y] and [x * y]: exact on two integers, otherwise on doubles. *)
Definition sub (x y : num) : result num :=
  match x, y with
  | Int a, Int b => Ok (Int (a - b))
  | _, _ => a <- to_float x ;; b <- to_float y ;;
            Ok (Float (SFsub prec emax a b))
  end.

Definition mul (x y : num) : result num :=
  match x, y with
  | Int a, Int b => Ok (Int (a * b))
  | _, _ => a <- to_float x ;; b <- to_float y ;;
            Ok (Float (SFmul prec emax a b))
  end.

(** [x / y]: two integers give the double nearest to the exact quotient,
    or [OverflowError] when that is beyond the doubles; otherwise both
    operands are converted and divided as doubles.  A zero divisor
    raises. *)
Definition truediv (x y : num) : result num :=
  match x, y with
  | Int a, Int b =>
      if (b =? 0)%Z then Raise ZeroDivisionError
      else
        let q := SFdiv prec emax (exact_of_Z a) (exact_of_Z b) in
        if is_infinite q then Raise OverflowError else Ok (Float q)
  | _, _ =>
      a <- to_float x ;; b <- to_float y ;;
      if float_is_zero b then Raise ZeroDivisionError
      else Ok (Float (SFdiv prec emax a b))
  end.

(** [x % 1 != 0]: false on the whole numbers; true on the other numbers
    and on the infinities and NaN, whose remainder is NaN. *)
Definition mod1_nonzero (x : num) : bool :=
  match ext_of x with
  | Fin q => negb (Qeq_bool (Fmt.py_mod1 q) 0)
  | _ => true
  end.

Definition sign_bit (f : spec_float) : bool :=
  match f with
  | S754_zero s | S754_infinity s | S754_finite s _ _ => s
  | S754_nan => false
  end.

Definition minus_of (f : spec_float) : string :=
  if sign_bit f then "-" else "".

(** [format(f, ".<d>f")] on a double: a minus sign when the sign bit is
    set, then the digits of the exact binary value rounded to [d] places,
    ties to even. *)
Definition format_float (d : nat) (f : spec_float) : string :=
  match f with
  | S754_nan => "nan"
  | S754_infinity _ => minus_of f ++ "inf"
  | S754_zero _ => minus_of f ++ Fmt.format_f d 0
  | S754_finite _ m e => minus_of f ++ Fmt.format_f d (magnitude_of m e)
  end.

(** [format(x, ".<d>f")]: an [int] is converted to [float] first. *)
Definition format_f (d : nat) (x : num) : result string :=
  f <- to_float x ;; Ok (format_float d f).

(** [fmt_compact]. *)
Definition fmt_compact (v : num) : result string :=
  if ge (abs v) (Int 1000000) then
    m <- truediv v (Int 1000000) ;;
    if mod1_nonzero m
    then t <- format_f 1 m ;; Ok ("$" ++ t ++ "M")
    else t <- format_f 0 m ;; Ok ("$" ++ t ++ "M")
  else if ge (abs v) (Int 1000) then
    k <- truediv v (Int 1000) ;;
    t <- format_f 0 k ;; Ok ("$" ++ t ++ "K")
  else
    t <- format_f 0 v ;; Ok ("$" ++ t).

(** Line 131: [(current - previous) / abs(previous) * 100]. *)
Definition pct_change (current previous : num) : result num :=
  d <- sub current previous ;;
  q <- truediv d (abs previous) ;;
  mul q (Int 100).

(** [trend_badge]; [None] stands for Python's [None]. *)
Definition trend_badge (current previous : option num)
  (lower_is_better : bool) : result string :=
  match previous with
  | None => Ok no_data_badge
  | Some p =>
      if is_nan p || eq p (Int 0) then Ok no_data_badge
      else
        match current with
        | None => Ok no_data_badge
        | Some c =>
            if is_nan c then Ok no_data_badge
            else
              pct <- pct_change c p ;;
              let positive_outcome :=
                if lower_is_better then lt pct (Int 0) else gt pct (Int 0) in
              let color :=
                if positive_outcome then "#16a34a" else "#dc2626" in
              let arrow := if gt pct (Int 0) then "↑" else "↓" in
              t <- format_f 2 (abs pct) ;;
              Ok (span color (arrow ++ " " ++ t ++ "%"))
        end
  end.

(** [10 ** e]: an [int] for [e >= 0]; for [e < 0] the double nearest to
    [10^e], which is zero from [e = -324] on. *)
Definition pow10 (e : Z) : num :=
  if (0 <=? e)%Z then Int (10 ^ e)
  else Float (SFdiv prec emax (exact_of_Z 1) (exact_of_Z (10 ^ (- e)))).

(** [math.ceil]. *)
Definition ceil (x : num) : result Z :=
  match ext_of x with
  | NaN => Raise ValueError
  | Inf _ => Raise OverflowError
  | Fin q => Ok (Qceiling q)
  end.

Section Libm.

(** [math.log10] is the logarithm of the C library, whose rounding is not
    specified: just below a power of ten it may or may not return the
    whole number.  [log10_floor x] stands for
    [math.floor(math.log10(f))] on the positive finite double [f] of
    exact value [x]. *)
Variable log10_floor : Q -> Z.

(** [math.floor(math.log10(x))], with the errors of the two calls. *)
Definition floor_log10 (x : num) : result Z :=
  match ext_of x with
  | NaN => Raise ValueError
  | Inf true => Raise ValueError
  | Inf false => Raise OverflowError
  | Fin q => if Qle_bool q 0 then Raise ValueError else Ok (log10_floor q)
  end.

(** [make_y_ticks]. *)
Definition make_y_ticks (max_val : num) (n : Z)
  : result (list num * list string) :=
  if le max_val (Int 0) then Ok ([Int 0], ["$0"])
  else
    raw_step <- truediv max_val (Int (n - 1)) ;;
    e <- floor_log10 raw_step ;;
    let magnitude := pow10 e in
    q <- truediv raw_step magnitude ;;
    c <- ceil q ;;
    nice_step <- mul (Int c) magnitude ;;
    ticks <- mapM (fun i => mul (Int i) nice_step) (range n) ;;
    labels <- mapM fmt_compact ticks ;;
    Ok (ticks, labels).

End Libm.

(** What is assumed of the C library: the exponent it finds for [x] is
    the decade of [x], except that within [tolerance] of a power of ten it
    may be the neighbouring one.  The exact logarithm, [floor_log10]
    above, is one such function. *)
Definition tolerance : Q := 1 # 1000000000.

Definition accurate (log10_floor : Q -> Z) : Prop :=
  forall (m : positive) (e : Z),
    let x := magnitude_of m e in
    let k := log10_floor x in
    (10 ^ k * (1 - tolerance) <= x)%Q
    /\ (x < 10 ^ (k + 1) * (1 + tolerance))%Q.

End B64.

(** ** Columns, frames and the collaborators of the script *)

(** A float column or [pd.Series] of finite values: [None] stands for
    NaN. *)
Definition series : Type := list (option Q).

(** [Series.dropna()]. *)
Fixpoint dropna {A : Type} (s : list (option A)) : list A :=
  match s with
  | [] => []
  | Some x :: t => x :: dropna t
  | None :: t => dropna t
  end.

(** The [.empty] attribute. *)
Definition is_empty {A : Type} (l : list A) : bool :=
  match l with
  | [] => true
  | _ :: _ => false
  end.

Definition Qsum (l : list Q) : Q := fold_right Qplus 0%Q l.

(** [Series.mean()], which skips NaN and is NaN when nothing is left. *)
Definition series_mean (s : series) : option Q :=
  match dropna s with
  | [] => None
  | ds => Some (Qsum ds / inject_Z (Z.of_nat (length ds)))%Q
  end.

(** [unique()]: the distinct values, in order of first appearance. *)
Fixpoint unique {A : Type} (eqb : A -> A -> bool) (l : list A) : list A :=
  match l with
  | [] => []
  | x :: t => x :: filter (fun y => negb (eqb y x)) (unique eqb t)
  end.

(** [sorted(l, reverse=True)] on integers. *)
Fixpoint insert_desc (x : Z) (l : list Z) : list Z :=
  match l with
  | [] => [x]
  | y :: t => if (y <=? x)%Z then x :: l else y :: insert_desc x t
  end.

Definition sorted_reverse (l : list Z) : list Z := fold_right insert_desc [] l.

(** [l.index(x)], called only under [x in l]. *)
Fixpoint list_index (x : Z) (l : list Z) : nat :=
  match l with
  | [] => O
  | y :: t => if (y =? x)%Z then O else S (list_index x t)
  end.

(** A row of [sales_df] with the columns the script reads.  The [year]
    and [month] columns hold whole numbers, or NaN where the purchase
    timestamp is missing. *)
Record sale : Type := {
  order_id : string;
  order_status : string;
  price : Q;
  year : option Z;
  month : option Z;
  purchase_day : Z;
  delivered_day : option Z;
  delivery_speed : option Q
}.

(** The functions imported from [business_metrics] and [data_loader],
    and [DataFrame.empty], over some representation of a frame. *)
Class Backend (frame : Type) : Type := {
  df_empty : frame -> bool;
  filter_by_period : frame -> Z -> option Z -> frame;
  calculate_delivery_speed : frame -> frame;
  calculate_revenue : frame -> pyval;
  calculate_avg_order_value : frame -> pyval;
  calculate_order_count : frame -> pyval;
  calculate_mom_growth : frame -> series
}.

(** ** The script *)

Definition MONTH_ABBRS : list string :=
  ["Jan"; "Feb"; "Mar"; "Apr"; "May"; "Jun";
   "Jul"; "Aug"; "Sep"; "Oct"; "Nov"; "Dec"].

(** Lines 169-172. *)
Definition delivered_of (sales_df : list sale) : list sale :=
  filter (fun r => String.eqb (order_status r) "delivered") sales_df.

Definition available_years (delivered : list sale) : list Z :=
  sorted_reverse (unique Z.eqb (dropna (map year delivered))).

(** Line 181. *)
Definition default_yr_idx (years : list Z) : nat :=
  if existsb (Z.eqb 2023) years then list_index 2023 years else O.

(** The initial value of the year [selectbox]: the option at [index], and
    nothing when there is no option. *)
Definition default_analysis_year (years : list Z) : option Z :=
  nth_error years (default_yr_idx years).

(** Lines 185-191: the month selection behind a label of the selector. *)
Fixpoint str_index (x : string) (l : list string) : nat :=
  match l with
  | [] => O
  | y :: t => if String.eqb y x then O else S (str_index x t)
  end.

Definition month_options : list string := "All Months" :: MONTH_ABBRS.

Definition analysis_month_of (selected_month_label : string) : option Z :=
  if String.eqb selected_month_label "All Months" then None
  else Some (Z.of_nat (str_index selected_month_label MONTH_ABBRS) + 1)%Z.

(** Line 215. *)
Definition avg_mom_of (mom_series : series) : option Q :=
  if negb (is_empty (dropna mom_series))
  then series_mean mom_series
  else Some 0%Q.

(** Lines 193-215: the frames and the numbers behind the KPI row. *)
Record kpis (frame : Type) : Type := {
  current_df : frame;
  comparison_df : frame;
  has_comparison : bool;
  revenue : pyval;
  prev_rev : pyval;
  aov : pyval;
  prev_aov : pyval;
  orders : pyval;
  prev_orders : pyval;
  mom_series : series;
  avg_mom : option Q
}.
Arguments current_df {frame} _.
Arguments comparison_df {frame} _.
Arguments has_comparison {frame} _.
Arguments revenue {frame} _.
Arguments prev_rev {frame} _.
Arguments aov {frame} _.
Arguments prev_aov {frame} _.
Arguments orders {frame} _.
Arguments prev_orders {frame} _.
Arguments mom_series {frame} _.
Arguments avg_mom {frame} _.

Definition dashboard_kpis {frame : Type} `{Backend frame}
  (delivered : frame) (analysis_year : Z) (analysis_month : option Z)
  : kpis frame :=
  let comparison_year := (analysis_year - 1)%Z in
  let current_df :=
    calculate_delivery_speed
      (filter_by_period delivered analysis_year analysis_month) in
  let comparison_df :=
    calculate_delivery_speed
      (filter_by_period delivered comparison_year analysis_month) in
  let has_comparison := negb (df_empty comparison_df) in
  let mom_series := calculate_mom_growth current_df in
  {| current_df := current_df;
     comparison_df := comparison_df;
     has_comparison := has_comparison;
     revenue := calculate_revenue current_df;
     prev_rev :=
       if has_comparison then calculate_revenue comparison_df else PyNone;
     aov := calculate_avg_order_value current_df;
     prev_aov :=
       if has_comparison then calculate_avg_order_value comparison_df
       else PyNone;
     orders := calculate_order_count current_df;
     prev_orders :=
       if has_comparison then calculate_order_count comparison_df
       else PyNone;
     mom_series := mom_series;
     avg_mom := avg_mom_of mom_series |}.

(** The trend lines of the three comparison cards (lines 228, 253, 265). *)
Definition kpi_trends {frame : Type} (k : kpis frame)
  : string * string * string :=
  (trend_badge (revenue k) (prev_rev k) false,
   trend_badge (aov k) (prev_aov k) false,
   trend_badge (orders k) (prev_orders k) false).

(** Lines 408-415: the rows of [sat_df], and the mean score per bucket. *)
Record sat_row : Type := {
  delivery_bucket : string;
  review_score : option Q
}.

Definition buckets : list string := ["1-3 days"; "4-7 days"; "8+ days"].

(** [groupby("delivery_bucket")["review_score"].mean()]: one entry per
    label that occurs.  pandas orders the entries by label; [reindex]
    reads them by label only. *)
Definition groupby_mean (df : list sat_row) : list (string * option Q) :=
  map (fun k =>
         (k, series_mean
               (map review_score
                  (filter (fun r => String.eqb (delivery_bucket r) k) df))))
      (unique String.eqb (map delivery_bucket df)).

(** [Series.reindex(labels)]: the entry of each label, NaN when absent. *)
Definition reindex (s : list (string * option Q)) (labels : list string)
  : list (string * option Q) :=
  map (fun l =>
         (l, match find (fun kv => String.eqb (fst kv) l) s with
             | Some kv => snd kv
             | None => None
             end))
      labels.

Definition bucket_means (sat_df : list sat_row) : list (string * option Q) :=
  reindex
    (groupby_mean
       (filter (fun r => negb (String.eqb (delivery_bucket r) "Unknown"))
          sat_df))
    buckets.

(** ** The collaborators, as the specification describes them

    [business_metrics.py] and [data_loader.py] are imported by the script.
    The definitions below follow the specification's description of them
    over frames that are lists of [sale] rows; they instantiate [Backend]
    for the worked examples. *)

(** Modelled from the spec: [filter_by_period] of [data_loader] (section
    4.2): keeps the rows whose year equals [y] and, when a month is given,
    whose month equals it. *)
Definition spec_filter_by_period (df : list sale) (y : Z) (m : option Z)
  : list sale :=
  filter
    (fun r =>
       match year r with
       | Some ry => (ry =? y)%Z
       | None => false
       end
       && match m with
          | None => true
          | Some mm =>
              match month r with
              | Some rm => (rm =? mm)%Z
              | None => false
              end
          end)
    df.

(** Modelled from the spec: [calculate_delivery_speed] of [data_loader]
    (section 3): the days between purchase and delivery, absent when the
    delivery timestamp is missing. *)
Definition spec_calculate_delivery_speed (df : list sale) : list sale :=
  map
    (fun r =>
       {| order_id := order_id r;
          order_status := order_status r;
          price := price r;
          year := year r;
          month := month r;
          purchase_day := purchase_day r;
          delivered_day := delivered_day r;
          delivery_speed :=
            option_map (fun d => inject_Z (d - purchase_day r))
              (delivered_day r) |})
    df.

(** Modelled from the spec: [calculate_revenue] of [business_metrics]
    (section 4.3): the sum of the unit prices. *)
Definition spec_calculate_revenue (df : list sale) : pyval :=
  PyNum (Qsum (map price df)).

(** Modelled from the spec: [calculate_order_count] of [business_metrics]
    (section 4.3): the number of distinct order identifiers. *)
Definition spec_order_count (df : list sale) : Z :=
  Z.of_nat (length (unique String.eqb (map order_id df))).

Definition spec_calculate_order_count (df : list sale) : pyval :=
  PyNum (inject_Z (spec_order_count df)).

(** Modelled from the spec: [calculate_avg_order_value] of
    [business_metrics] (section 4.3): revenue divided by order count,
    undefined when the order count is 0. *)
Definition spec_calculate_avg_order_value (df : list sale) : pyval :=
  if (spec_order_count df =? 0)%Z then PyNaN
  else PyNum (Qsum (map price df) / inject_Z (spec_order_count df))%Q.

(** Modelled from the spec: [calculate_mom_growth] of [business_metrics]
    (section 4.3): the revenue of each month that is present, in calendar
    order, and the percentage delta of each against the one before it; the
    first month has no prior value. *)
Definition month_revenue (df : list sale) (m : Z) : Q :=
  Qsum (map price
          (filter (fun r => match month r with
                            | Some rm => (rm =? m)%Z
                            | None => false
                            end) df)).

Definition present_months (df : list sale) : list Z :=
  filter (fun m => existsb (fun r => match month r with
                                     | Some rm => (rm =? m)%Z
                                     | None => false
                                     end) df)
    (map Z.of_nat (seq 1 12)).

Fixpoint pct_deltas (prev : Q) (l : list Q) : series :=
  match l with
  | [] => []
  | x :: t =>
      (if Qeq_bool prev 0 then None
       else Some ((x - prev) / prev * 100)%Q) :: pct_deltas x t
  end.

Definition spec_calculate_mom_growth (df : list sale) : series :=
  match map (month_revenue df) (present_months df) with
  | [] => []
  | x :: t => None :: pct_deltas x t
  end.

#[export] Instance spec_backend : Backend (list sale) := {
  df_empty := is_empty;
  filter_by_period := spec_filter_by_period;
  calculate_delivery_speed := spec_calculate_delivery_speed;
  calculate_revenue := spec_calculate_revenue;
  calculate_avg_order_value := spec_calculate_avg_order_value;
  calculate_order_count := spec_calculate_order_count;
  calculate_mom_growth := spec_calculate_mom_growth
}.

(** The end-to-end scenario of the specification: three delivered lines in
    January 2023 priced 100, 200 and 300, one in February 2023 priced 150. *)
Definition line (oid : string) (p : Z) (y m : Z) : sale :=
  {| order_id := oid; order_status := "delivered"; price := inject_Z p;
     year := Some y; month := Some m;
     purchase_day := 0; delivered_day := Some 2%Z;
     delivery_speed := None |}.

Definition scenario : list sale :=
  [line "o1" 100 2023 1; line "o2" 200 2023 1; line "o3" 300 2023 1;
   line "o4" 150 2023 2].

(** Further sample data: sales of 2022 and 2023 with a cancelled line of
    2024 and a delivered line without a purchase timestamp; sales of 2021
    and 2022; and a scored row of [sat_df]. *)
Definition cancelled_2024 : sale :=
  {| order_id := "x"; order_status := "canceled"; price := 5;
     year := Some 2024%Z; month := Some 1%Z;
     purchase_day := 0; delivered_day := None; delivery_speed := None |}.

Definition undated : sale :=
  {| order_id := "u"; order_status := "delivered"; price := 7;
     year := None; month := None;
     purchase_day := 0; delivered_day := None; delivery_speed := None |}.

Definition sales_2022_2023 : list sale :=
  [line "a" 10 2022 3; cancelled_2024; line "b" 20 2023 4; undated;
   line "c" 30 2022 5].

Definition sales_2021_2022 : list sale :=
  [line "a" 10 2021 3; line "b" 20 2022 4].

Definition scored (b : string) (score : Z) : sat_row :=
  {| delivery_bucket := b; review_score := Some (inject_Z score) |}.

(** ** The rest of the script: cards and charts *)

(** [format(x, "+.<d>f")]: [format_f] with a plus sign on values that are
    not negative. *)
Definition format_f_plus (d : nat) (x : Q) : string :=
  (if Fmt.Qltb x 0 then "" else "+") ++ Fmt.format_f d x.

(** Lines 216-217 and 239: the colour, the arrow and the value text of the
    average-monthly-growth card.  A NaN is not greater than 0 and prints
    as [+nan]. *)
Definition mom_positive (avg_mom : option Q) : bool :=
  match avg_mom with
  | Some a => Fmt.Qltb 0 a
  | None => false
  end.

Definition mom_color (avg_mom : option Q) : string :=
  if mom_positive avg_mom then "#16a34a" else "#dc2626".

Definition mom_arrow (avg_mom : option Q) : string :=
  if mom_positive avg_mom then "↑" else "↓".

Definition mom_value (avg_mom : option Q) : string :=
  match avg_mom with
  | Some a => format_f_plus 2 a ++ "%"
  | None => "+nan%"
  end.

(** Line 247. *)
Definition aov_display (aov : pyval) : string :=
  match aov with
  | PyNum a => fmt_compact a
  | PyNone | PyNaN => "—"
  end.

(** [range(a, b)]. *)
Definition range_from (a b : Z) : list Z :=
  map (fun i => (a + Z.of_nat i)%Z) (seq 0 (Z.to_nat (b - a))).

Definition in_month (m : Z) (r : sale) : bool :=
  match month r with
  | Some rm => (rm =? m)%Z
  | None => false
  end.

(** Lines 277-282: [groupby("month")["price"].sum()], one entry per month
    that occurs (rows without a month fall in no group); [reindex] over
    [range(1, 13)]; [dropna]. *)
Definition groupby_month_sum (df : list sale) : list (Z * Q) :=
  map (fun m => (m, Qsum (map price (filter (in_month m) df))))
      (unique Z.eqb (dropna (map month df))).

Definition reindex_int (s : list (Z * Q)) (idx : list Z)
  : list (Z * option Q) :=
  map (fun m =>
         (m, match find (fun kv => (fst kv =? m)%Z) s with
             | Some kv => Some (snd kv)
             | None => None
             end))
      idx.

Fixpoint dropna_indexed (s : list (Z * option Q)) : list (Z * Q) :=
  match s with
  | [] => []
  | (m, Some v) :: t => (m, v) :: dropna_indexed t
  | (_, None) :: t => dropna_indexed t
  end.

Definition monthly_of (df : list sale) : list (Z * Q) :=
  dropna_indexed (reindex_int (groupby_month_sum df) (range_from 1 13)).

(** Lines 343-349: the ten leading categories, highest last; the opacity
    of bar [i] among [n]; the bar colours. *)
Definition bar_opacity (n i : Z) : Q :=
  ((35 # 100) + (65 # 100) * inject_Z i / inject_Z (Z.max (n - 1) 1))%Q.

Definition bar_colors (n : Z) : list string :=
  map (fun i => "rgba(44,95,138," ++ Fmt.format_f 2 (bar_opacity n i) ++ ")")
      (range n).







(** ** Vocabulary of the statements *)

(** The sign that [format_f] writes. *)
Definition sign_of (x : Q) : string := if Fmt.Qltb x 0 then "-" else "".

(** The numeral that [format_f] writes for the scaled, rounded magnitude
    [n] with [d] fractional digits. *)
Definition numeral (d : nat) (n : Z) : string :=
  Fmt.show_nat (n / 10 ^ Z.of_nat d)
    ++ match d with
       | O => ""
       | S _ => "." ++ Fmt.digits_fixed d (n mod 10 ^ Z.of_nat d)
       end.

(** [n] is an integer nearest to the magnitude of [x] scaled by [10^d]. *)
Definition nearest (d : nat) (x : Q) (n : Z) : Prop :=
  (Qabs (Qabs x * inject_Z (10 ^ Z.of_nat d) - inject_Z n) <= 1 # 2)%Q.

(** [m % 1 == 0] holds exactly for the whole numbers. *)
Definition is_integer (m : Q) : Prop := exists z : Z, (m == inject_Z z)%Q.

(** [None] or NaN. *)
Definition undefined (v : pyval) : Prop := v = PyNone \/ v = PyNaN.

(** A number equal to zero. *)
Definition is_zero (v : pyval) : Prop :=
  exists q : Q, v = PyNum q /\ (q == 0)%Q.

(** The rows of one delivery bucket. *)
Definition in_bucket (b : string) (r : sat_row) : bool :=
  String.eqb (delivery_bucket r) b.

(** A row whose month is one of the twelve calendar months. *)
Definition dated (r : sale) : bool :=
  match month r with
  | Some m => (1 <=? m)%Z && (m <=? 12)%Z
  | None => false
  end.

(** The monthly series, entry by entry: each calendar month that occurs,
    with the sum of its prices. *)
Definition monthly_entries (df : list sale) : list (Z * Q) :=
  flat_map
    (fun m =>
       if existsb (in_month m) df
       then [(m, Qsum (map price (filter (in_month m) df)))]
       else [])
    (range_from 1 13).

(** [n] is what the [f] format prints for the magnitude of [x] with [d]
    decimals: an integer nearest to the scaled magnitude, the even one on
    a tie. *)
Definition rounds_to (d : nat) (x : Q) (n : Z) : Prop :=
  nearest d x n
  /\ ((Qabs (Qabs x * inject_Z (10 ^ Z.of_nat d) - inject_Z n) == 1 # 2)%Q
      -> Z.even n = true).

(** A double that is not NaN and whose sign bit is [s]. *)
Definition signed (s : bool) (f : spec_float) : Prop :=
  match f with
  | S754_nan => False
  | S754_zero t | S754_infinity t | S754_finite t _ _ => t = s
  end.

(** The minus sign that a number is printed with. *)
Definition minus_sign (x : B64.num) : string :=
  match x with
  | B64.Int z => if (z <? 0)%Z then "-" else ""
  | B64.Float f => B64.minus_of f
  end.

(** Whether a minus sign occurs in a text. *)
Fixpoint has_minus (s : string) : bool :=
  match s with
  | EmptyString => false
  | String c t => Ascii.eqb c "-" || has_minus t
  end.

Definition map_result {A B : Type} (f : A -> B) (r : result A) : result B :=
  match r with
  | Ok a => Ok (f a)
  | Raise e => Raise e
  end.

(** The check that [fmt_compact] prints the whole number [i - 999] as
    its sign and its digits. *)
Definition small_int_ok (i : Z) : bool :=
  let z := (i - 999)%Z in
  match B64.fmt_compact (B64.Int z) with
  | Ok s => String.eqb s ("$" ++ minus_sign (B64.Int z)
                              ++ Fmt.show_nat (Z.abs z))
  | Raise _ => false
  end.

(** The double [0.05 + 0.07]. *)
Definition twelve_cents : spec_float :=
  SFadd B64.prec B64.emax (B64.decimal 5 (-2)) (B64.decimal 7 (-2)).

(** * Properties *)

(** ** Rounding and formatting *)

Lemma Qltb_lt (x y : Q) : Fmt.Qltb x y = true <-> (x < y)%Q.
Proof.
  unfold Fmt.Qltb. rewrite Qlt_alt.
  destruct (x ?= y)%Q; split; intro H; congruence.
Qed.

Lemma Qltb_ge (x y : Q) : Fmt.Qltb x y = false <-> (y <= x)%Q.
Proof.
  rewrite <- not_true_iff_false, Qltb_lt. split.
  - apply Qnot_lt_le.
  - apply Qle_not_lt.
Qed.

#[export] Instance Qltb_proper : Proper (Qeq ==> Qeq ==> eq) Fmt.Qltb.
Proof.
  intros x x' Hx y y' Hy. unfold Fmt.Qltb.
  now rewrite (Qcompare_comp _ _ Hx _ _ Hy).
Qed.

#[export] Instance py_mod1_proper : Proper (Qeq ==> Qeq) Fmt.py_mod1.
Proof.
  intros x y H. unfold Fmt.py_mod1.
  rewrite (Qfloor_comp _ _ H). apply Qplus_comp; [exact H | reflexivity].
Qed.

#[export] Instance round_half_even_proper :
  Proper (Qeq ==> eq) Fmt.round_half_even.
Proof.
  intros x y H. unfold Fmt.round_half_even.
  rewrite (Qfloor_comp _ _ H).
  now rewrite (Qcompare_comp _ _ (py_mod1_proper _ _ H) _ _ (Qeq_refl (1 # 2))).
Qed.

#[export] Instance format_f_proper (d : nat) :
  Proper (Qeq ==> eq) (Fmt.format_f d).
Proof.
  intros x y H. unfold Fmt.format_f.
  rewrite (Qltb_proper _ _ H _ _ (Qeq_refl 0)).
  assert (Hs : (Qabs x * inject_Z (10 ^ Z.of_nat d) ==
                Qabs y * inject_Z (10 ^ Z.of_nat d))%Q) by now rewrite H.
  now rewrite (round_half_even_proper _ _ Hs).
Qed.

#[export] Instance fmt_compact_proper : Proper (Qeq ==> eq) fmt_compact.
Proof.
  intros x y H. unfold fmt_compact.
  assert (Ha : (Qabs x == Qabs y)%Q) by now rewrite H.
  assert (Hm : (x / 1000000 == y / 1000000)%Q) by now rewrite H.
  assert (Hk : (x / 1000 == y / 1000)%Q) by now rewrite H.
  rewrite (Qleb_comp _ _ (Qeq_refl 1000000) _ _ Ha).
  rewrite (Qleb_comp _ _ (Qeq_refl 1000) _ _ Ha).
  rewrite (Qeqb_comp _ _ (py_mod1_proper _ _ Hm) _ _ (Qeq_refl 0)).
  now rewrite (format_f_proper 1 _ _ Hm), (format_f_proper 0 _ _ Hm),
    (format_f_proper 0 _ _ Hk), (format_f_proper 0 _ _ H).
Qed.

Lemma py_mod1_range (x : Q) : (0 <= Fmt.py_mod1 x < 1)%Q.
Proof.
  unfold Fmt.py_mod1.
  pose proof (Qfloor_le x) as Hlo. pose proof (Qlt_floor x) as Hhi.
  rewrite inject_Z_plus in Hhi. change (inject_Z 1) with 1%Q in Hhi.
  split; lra.
Qed.

(** [round_half_even] returns a nearest integer. *)
Lemma round_half_even_near (x : Q) :
  (Qabs (x - inject_Z (Fmt.round_half_even x)) <= 1 # 2)%Q.
Proof.
  pose proof (py_mod1_range x) as [Hlo Hhi].
  unfold Fmt.round_half_even.
  apply Qabs_Qle_condition.
  destruct (Fmt.py_mod1 x ?= 1 # 2)%Q eqn:Hc.
  - apply Qeq_alt in Hc. unfold Fmt.py_mod1 in *.
    destruct (Z.even (Qfloor x));
      rewrite ?inject_Z_plus; change (inject_Z 1) with 1%Q; split; lra.
  - apply Qlt_alt in Hc. unfold Fmt.py_mod1 in *. split; lra.
  - apply Qgt_alt in Hc. unfold Fmt.py_mod1 in *.
    rewrite inject_Z_plus. change (inject_Z 1) with 1%Q. split; lra.
Qed.

Lemma numeral_0 (n : Z) : numeral 0 n = Fmt.show_nat n.
Proof.
  unfold numeral. simpl Z.of_nat. rewrite Z.pow_0_r, Z.div_1_r.
  induction (Fmt.show_nat n) as [|a s IH]; simpl; [reflexivity|].
  now rewrite IH.
Qed.

Lemma str_app_assoc (a b c : string) : (a ++ b) ++ c = a ++ b ++ c.
Proof. induction a as [|x a IH]; simpl; [reflexivity | now rewrite IH]. Qed.

Lemma str_app_nil_r (a : string) : a ++ "" = a.
Proof. induction a as [|x a IH]; simpl; [reflexivity | now rewrite IH]. Qed.

Lemma py_mod1_zero_iff (m : Q) :
  Qeq_bool (Fmt.py_mod1 m) 0 = true <-> is_integer m.
Proof.
  rewrite Qeq_bool_iff. unfold Fmt.py_mod1, is_integer. split.
  - intro H. exists (Qfloor m). lra.
  - intros [z Hz]. rewrite (Qfloor_comp _ _ Hz), Qfloor_Z. lra.
Qed.

Lemma sign_of_div (v c : Q) : (0 < c)%Q -> sign_of (v / c) = sign_of v.
Proof.
  intro Hc. unfold sign_of.
  destruct (Fmt.Qltb v 0) eqn:Hv.
  - apply Qltb_lt in Hv.
    assert (H : (v / c < 0)%Q).
    { apply Qlt_shift_div_r; [exact Hc | lra]. }
    apply Qltb_lt in H. now rewrite H.
  - apply Qltb_ge in Hv.
    assert (H : (0 <= v / c)%Q).
    { apply Qle_shift_div_l; [exact Hc | lra]. }
    apply Qltb_ge in H. now rewrite H.
Qed.

Lemma fmt_compact_thousands (v : Q) :
  (1000 <= Qabs v)%Q -> (Qabs v < 1000000)%Q ->
  fmt_compact v = "$" ++ Fmt.format_f 0 (v / 1000) ++ "K".
Proof.
  intros Hlo Hhi. unfold fmt_compact.
  apply Qle_bool_iff in Hlo. rewrite Hlo.
  destruct (Qle_bool 1000000 (Qabs v)) eqn:E; [|reflexivity].
  apply Qle_bool_iff in E. lra.
Qed.

Lemma fmt_compact_units (v : Q) :
  (Qabs v < 1000)%Q -> fmt_compact v = "$" ++ Fmt.format_f 0 v.
Proof.
  intro H. unfold fmt_compact.
  destruct (Qle_bool 1000000 (Qabs v)) eqn:E1.
  { apply Qle_bool_iff in E1. lra. }
  destruct (Qle_bool 1000 (Qabs v)) eqn:E2; [|reflexivity].
  apply Qle_bool_iff in E2. lra.
Qed.

(** ** Negative values *)

Lemma format_f_negative (d : nat) (x : Q) :
  (x < 0)%Q -> Fmt.format_f d x = "-" ++ Fmt.format_f d (- x).
Proof.
  intro Hx. unfold Fmt.format_f.
  assert (Hs : (Qabs x * inject_Z (10 ^ Z.of_nat d) ==
                Qabs (- x) * inject_Z (10 ^ Z.of_nat d))%Q)
    by now rewrite Qabs_opp.
  rewrite (round_half_even_proper _ _ Hs).
  assert (H1 : Fmt.Qltb x 0 = true) by now apply Qltb_lt.
  assert (H2 : Fmt.Qltb (- x) 0 = false) by (apply Qltb_ge; lra).
  now rewrite H1, H2.
Qed.

Lemma is_integer_opp (m : Q) : is_integer m <-> is_integer (- m).
Proof.
  split; intros [z Hz]; exists (- z)%Z; rewrite inject_Z_opp; lra.
Qed.

Lemma py_mod1_test_opp (m : Q) :
  Qeq_bool (Fmt.py_mod1 (- m)) 0 = Qeq_bool (Fmt.py_mod1 m) 0.
Proof.
  apply eq_true_iff_eq. rewrite !py_mod1_zero_iff.
  symmetry. apply is_integer_opp.
Qed.

(** The output for a negative value is the output for its magnitude with a
    minus sign written after the dollar sign. *)
Lemma fmt_compact_negative_inner_sign (v : Q) :
  (v < 0)%Q ->
  exists body : string,
    fmt_compact (- v) = "$" ++ body /\ fmt_compact v = "$-" ++ body.
Proof.
  intro Hv. unfold fmt_compact.
  assert (Ha : (Qabs (- v) == Qabs v)%Q) by apply Qabs_opp.
  rewrite (Qleb_comp _ _ (Qeq_refl 1000000) _ _ Ha).
  rewrite (Qleb_comp _ _ (Qeq_refl 1000) _ _ Ha).
  assert (Hm : (- v / 1000000 == - (v / 1000000))%Q) by (field; lra).
  assert (Hk : (- v / 1000 == - (v / 1000))%Q) by (field; lra).
  rewrite (Qeqb_comp _ _ (py_mod1_proper _ _ Hm) _ _ (Qeq_refl 0)).
  rewrite py_mod1_test_opp.
  rewrite (format_f_proper 1 _ _ Hm), (format_f_proper 0 _ _ Hm),
    (format_f_proper 0 _ _ Hk).
  assert (Hm0 : (v / 1000000 < 0)%Q) by (apply Qlt_shift_div_r; lra).
  assert (Hk0 : (v / 1000 < 0)%Q) by (apply Qlt_shift_div_r; lra).
  rewrite (format_f_negative 1 _ Hm0), (format_f_negative 0 _ Hm0),
    (format_f_negative 0 _ Hk0), (format_f_negative 0 _ Hv).
  destruct (Qle_bool 1000000 (Qabs v)).
  - destruct (Qeq_bool (Fmt.py_mod1 (v / 1000000)) 0); simpl;
      eexists; split; reflexivity.
  - destruct (Qle_bool 1000 (Qabs v)); simpl; eexists; split; reflexivity.
Qed.

(** ** Trend badges *)

Lemma span_green_not_no_data (body : string) :
  span "#16a34a" body <> no_data_badge.
Proof. unfold no_data_badge, span. simpl. discriminate. Qed.

Lemma span_red_not_no_data (body : string) :
  span "#dc2626" body <> no_data_badge.
Proof. unfold no_data_badge, span. simpl. discriminate. Qed.

(** What [trend_badge] returns on two numbers, the second not zero. *)
Lemma trend_badge_numbers (c p : Q) (l : bool) :
  ~ (p == 0)%Q ->
  trend_badge (PyNum c) (PyNum p) l =
  span (if (if l then Fmt.Qltb (pct_change c p) 0
            else Fmt.Qltb 0 (pct_change c p))
        then "#16a34a" else "#dc2626")
       ((if Fmt.Qltb 0 (pct_change c p) then "↑" else "↓")
          ++ " " ++ Fmt.format_f 2 (Qabs (pct_change c p)) ++ "%").
Proof.
  intro Hp. unfold trend_badge.
  destruct (Qeq_bool p 0) eqn:E; [|reflexivity].
  apply Qeq_bool_iff in E. contradiction.
Qed.

(** C2.  The badge is the neutral no-data badge exactly when the previous
    value is undefined or zero, or the current value is undefined.  With a
    previous value of zero, [None] or NaN this holds whatever the current
    value; the no-data badge is one fixed string without a percent sign. *)
Theorem trend_badge_no_data_iff :
  (forall (current previous : pyval) (lower_is_better : bool),
     trend_badge current previous lower_is_better = no_data_badge
     <-> (undefined previous \/ is_zero previous \/ undefined current))
  /\ (forall (x : pyval) (lower_is_better : bool),
        trend_badge x (PyNum 0) lower_is_better = no_data_badge
        /\ trend_badge x PyNone lower_is_better = no_data_badge
        /\ trend_badge x PyNaN lower_is_better = no_data_badge)
  /\ String.index 0 "%" no_data_badge = None.
Proof.
  split; [|split].
  - intros c p l. split.
    + intro H. destruct p as [| |p].
      * left. now left.
      * left. now right.
      * destruct (Qeq_bool p 0) eqn:E.
        { right. left. exists p. split; [reflexivity|].
          now apply Qeq_bool_iff. }
        destruct c as [| |c].
        { right. right. now left. }
        { right. right. now right. }
        exfalso. apply Qeq_bool_neq in E.
        rewrite (trend_badge_numbers c p l E) in H.
        destruct (if l then Fmt.Qltb (pct_change c p) 0
                  else Fmt.Qltb 0 (pct_change c p)).
        -- exact (span_green_not_no_data _ H).
        -- exact (span_red_not_no_data _ H).
    + intros [[-> | ->] | [(q & -> & Hq) | [-> | ->]]]; try reflexivity.
      * unfold trend_badge. apply Qeq_bool_iff in Hq. now rewrite Hq.
      * destruct p as [| |p]; try reflexivity.
        unfold trend_badge. now destruct (Qeq_bool p 0).
      * destruct p as [| |p]; try reflexivity.
        unfold trend_badge. now destruct (Qeq_bool p 0).
  - intros x l. repeat split.
  - vm_compute. reflexivity.
Qed.

Lemma trend_badge_no_data_iff_witness :
  trend_badge (PyNum 5) (PyNum 0) false = no_data_badge
  /\ trend_badge PyNaN (PyNum 3) true = no_data_badge
  /\ trend_badge (PyNum 5) (PyNum 3) false <> no_data_badge.
Proof.
  destruct trend_badge_no_data_iff as (Hiff & _ & _).
  split; [|split].
  - apply Hiff. right. left. exists 0%Q. split; reflexivity.
  - apply Hiff. right. right. right. reflexivity.
  - intro H. apply Hiff in H.
    destruct H as [[H | H] | [(q & H & Hq) | [H | H]]]; try discriminate H.
    injection H as <-. vm_compute in Hq. discriminate Hq.
Defined.

(** C10.  When current equals previous (both defined, previous not zero)
    the change is exactly zero and the badge is a down arrow with 0.00%
    in the unfavourable colour, for either value of the flag. *)
Theorem trend_badge_zero_change (current previous : Q)
  (lower_is_better : bool) :
  (current == previous)%Q -> ~ (previous == 0)%Q ->
  (pct_change current previous == 0)%Q
  /\ trend_badge (PyNum current) (PyNum previous) lower_is_better =
     span "#dc2626" "↓ 0.00%".
Proof.
  intros Heq Hp.
  assert (Hz : (pct_change current previous == 0)%Q).
  { unfold pct_change. rewrite Heq. field.
    intro Ha. apply Hp.
    destruct (Qabs_Qle_condition previous 0) as [Hc _].
    assert (Hle : (Qabs previous <= 0)%Q) by lra.
    specialize (Hc Hle). lra. }
  split; [exact Hz|].
  rewrite (trend_badge_numbers _ _ lower_is_better Hp).
  assert (Ha : (Qabs (pct_change current previous) == 0)%Q)
    by (rewrite Hz; reflexivity).
  rewrite (format_f_proper 2 _ _ Ha).
  rewrite (Qltb_proper _ _ (Qeq_refl 0) _ _ Hz).
  rewrite (Qltb_proper _ _ Hz _ _ (Qeq_refl 0)).
  now destruct lower_is_better.
Qed.

Lemma trend_badge_zero_change_witness :
  (pct_change 100 (200 # 2) == 0)%Q
  /\ trend_badge (PyNum 100) (PyNum (200 # 2)) true = span "#dc2626" "↓ 0.00%".
Proof.
  apply trend_badge_zero_change; vm_compute; [reflexivity | discriminate].
Defined.

(** ** Powers of ten and the exact logarithm *)

Lemma Qpow10_pos (e : Z) : (0 < 10 ^ e)%Q.
Proof. apply Qpower_0_lt. reflexivity. Qed.

Lemma Qpow10_nat (n : nat) :
  (10 ^ Z.of_nat n == inject_Z (10 ^ Z.of_nat n))%Q.
Proof.
  rewrite Zpower_Qpower by apply Nat2Z.is_nonneg. reflexivity.
Qed.

Lemma pos_lt_pow2_size (p : positive) :
  (Zpos p < 2 ^ Z.of_nat (Pos.size_nat p))%Z.
Proof.
  induction p as [p IH|p IH|]; simpl Pos.size_nat;
    rewrite ?Nat2Z.inj_succ, ?Z.pow_succ_r by apply Nat2Z.is_nonneg;
    lia.
Qed.

Lemma pos_lt_pow10_size (p : positive) :
  (Zpos p < 10 ^ Z.of_nat (Pos.size_nat p))%Z.
Proof.
  apply Z.lt_le_trans with (2 ^ Z.of_nat (Pos.size_nat p))%Z.
  - apply pos_lt_pow2_size.
  - apply Z.pow_le_mono_l. lia.
Qed.

Lemma log10_up_spec (fuel : nat) (x : Q) (e : Z) :
  (10 ^ e <= x)%Q -> (x < 10 ^ (e + Z.of_nat fuel))%Q ->
  (10 ^ log10_up fuel x e <= x < 10 ^ (log10_up fuel x e + 1))%Q.
Proof.
  revert e. induction fuel as [|f IH]; intros e Hlo Hhi.
  - simpl in Hhi. rewrite Z.add_0_r in Hhi. lra.
  - simpl log10_up. destruct (Qle_bool (10 ^ (e + 1)) x) eqn:E.
    + apply Qle_bool_iff in E. apply IH; [exact E|].
      replace (e + 1 + Z.of_nat f)%Z with (e + Z.of_nat (S f))%Z by lia.
      exact Hhi.
    + split; [exact Hlo|].
      apply Qnot_le_lt. intro H. apply Qle_bool_iff in H. congruence.
Qed.

Lemma log10_down_spec (fuel : nat) (x : Q) (e : Z) :
  (x < 10 ^ (e + 1))%Q -> (10 ^ (e + 1 - Z.of_nat fuel) <= x)%Q ->
  (10 ^ log10_down fuel x e <= x < 10 ^ (log10_down fuel x e + 1))%Q.
Proof.
  revert e. induction fuel as [|f IH]; intros e Hhi Hlo.
  - simpl in Hlo. rewrite Z.sub_0_r in Hlo. lra.
  - simpl log10_down. destruct (Qle_bool (10 ^ e) x) eqn:E.
    + apply Qle_bool_iff in E. split; assumption.
    + assert (Hx : (x < 10 ^ e)%Q).
      { apply Qnot_le_lt. intro H. apply Qle_bool_iff in H. congruence. }
      apply IH.
      * replace (e - 1 + 1)%Z with e by lia. exact Hx.
      * replace (e - 1 + 1 - Z.of_nat f)%Z
          with (e + 1 - Z.of_nat (S f))%Z by lia.
        exact Hlo.
Qed.

(** [floor_log10] is the floor of the decimal logarithm. *)
Lemma floor_log10_spec (x : Q) :
  (0 < x)%Q -> (10 ^ floor_log10 x <= x < 10 ^ (floor_log10 x + 1))%Q.
Proof.
  intro Hx. unfold floor_log10.
  destruct x as [a b]. unfold Qlt in Hx. simpl in Hx.
  assert (Ha : (0 < a)%Z) by lia.
  destruct (Qle_bool 1 (a # b)) eqn:E.
  - apply Qle_bool_iff in E. apply log10_up_spec.
    + exact E.
    + simpl Qnum. rewrite Z.add_0_l, Qpow10_nat.
      pose proof (pos_lt_pow10_size (Z.to_pos a)) as Hs.
      rewrite Z2Pos.id in Hs by exact Ha.
      unfold Qlt, inject_Z. simpl.
      assert (Hb : (1 <= Zpos b)%Z) by lia. nia.
  - assert (Hlt : (a # b < 1)%Q).
    { apply Qnot_le_lt. intro H. apply Qle_bool_iff in H. congruence. }
    apply log10_down_spec.
    + exact Hlt.
    + simpl Qden. replace (-1 + 1 - Z.of_nat (Pos.size_nat b))%Z
        with (- Z.of_nat (Pos.size_nat b))%Z by lia.
      rewrite Qpower_opp, Qpow10_nat.
      pose proof (pos_lt_pow10_size b) as Hs.
      apply Qle_shift_inv_r.
      * unfold Qlt, inject_Z. simpl. lia.
      * unfold Qle, Qmult, inject_Z. simpl. nia.
Qed.

(** ** The KPI row *)

Lemma dropna_In {A : Type} (s : list (option A)) (x : A) :
  In x (dropna s) <-> In (Some x) s.
Proof.
  induction s as [|[a|] s IH]; simpl.
  - tauto.
  - rewrite IH. split; intros [H|H]; auto; left; congruence.
  - rewrite IH. split; [auto|]. intros [H|H]; [discriminate | exact H].
Qed.

Lemma dropna_nil {A : Type} (s : list (option A)) :
  dropna s = [] <-> Forall (fun d => d = None) s.
Proof.
  induction s as [|[a|] s IH]; simpl.
  - split; [constructor | reflexivity].
  - split; [discriminate|]. intro H. inversion H. discriminate.
  - rewrite IH. split.
    + intro H. now constructor.
    + intro H. now inversion H.
Qed.

Lemma avg_mom_of_defined (s : series) :
  dropna s <> [] ->
  avg_mom_of s =
  Some (Qsum (dropna s) / inject_Z (Z.of_nat (length (dropna s))))%Q.
Proof.
  intro H. unfold avg_mom_of, series_mean.
  destruct (dropna s) as [|d ds]; [contradiction | reflexivity].
Qed.

(** C6.  The average monthly growth of the KPI row is computed from the
    series of [calculate_mom_growth] on the current frame.  When some
    delta is defined it is the arithmetic mean of the defined deltas:
    their sum divided by their number.  When every delta is undefined, or
    there is none, it is 0 and not undefined. *)
Theorem avg_mom_mean_of_defined_deltas :
  (forall (frame : Type) (B : Backend frame) (delivered : frame)
          (analysis_year : Z) (analysis_month : option Z),
     let k := dashboard_kpis delivered analysis_year analysis_month in
     mom_series k = calculate_mom_growth (current_df k)
     /\ avg_mom k = avg_mom_of (mom_series k))
  /\ (forall s : series,
        (exists d : Q, In (Some d) s) ->
        exists a : Q,
          avg_mom_of s = Some a
          /\ (a == Qsum (dropna s) / inject_Z (Z.of_nat (length (dropna s))))%Q
          /\ (a * inject_Z (Z.of_nat (length (dropna s))) == Qsum (dropna s))%Q)
  /\ (forall s : series,
        Forall (fun d => d = None) s -> avg_mom_of s = Some 0%Q).
Proof.
  split; [|split].
  - intros frame B delivered y m k. split; reflexivity.
  - intros s [d Hd].
    assert (Hne : dropna s <> []).
    { apply dropna_In in Hd. intro E. rewrite E in Hd. exact Hd. }
    rewrite (avg_mom_of_defined s Hne).
    eexists. split; [reflexivity|]. split; [reflexivity|].
    field. destruct (dropna s) as [|x xs]; [contradiction|].
    unfold Qeq, inject_Z. simpl length. simpl Qnum. simpl. lia.
  - intros s H. apply dropna_nil in H.
    unfold avg_mom_of. now rewrite H.
Qed.

Lemma avg_mom_mean_of_defined_deltas_witness :
  (exists a : Q,
     avg_mom (dashboard_kpis scenario 2023 None) = Some a /\ (a == -75)%Q)
  /\ avg_mom_of [None; None] = Some 0%Q.
Proof.
  destruct avg_mom_mean_of_defined_deltas as (Hk & Hmean & Hzero).
  split.
  - destruct (Hk (list sale) spec_backend scenario 2023%Z None) as [Hs Ha].
    destruct (Hmean (mom_series (dashboard_kpis scenario 2023 None)))
      as (a & Ea & Hval & _).
    + exists (-45000 # 600)%Q. vm_compute. right. left. reflexivity.
    + exists a. split.
      * rewrite Ha. exact Ea.
      * rewrite Hval. vm_compute. reflexivity.
  - apply Hzero. repeat constructor.
Defined.

(** C7.  The comparison frame is the period filter applied to the same
    delivered records with the year before and the same month selection,
    as the current frame is for the selected year; each current and each
    previous KPI value comes from the same calculator; and with an empty
    comparison frame every previous value is [None]. *)
Theorem comparison_period_same_filter_same_calculators
  (frame : Type) (B : Backend frame) (delivered : frame)
  (analysis_year : Z) (analysis_month : option Z) :
  let k := dashboard_kpis delivered analysis_year analysis_month in
  current_df k =
    calculate_delivery_speed
      (filter_by_period delivered analysis_year analysis_month)
  /\ comparison_df k =
       calculate_delivery_speed
         (filter_by_period delivered (analysis_year - 1) analysis_month)
  /\ revenue k = calculate_revenue (current_df k)
  /\ aov k = calculate_avg_order_value (current_df k)
  /\ orders k = calculate_order_count (current_df k)
  /\ (df_empty (comparison_df k) = false ->
      prev_rev k = calculate_revenue (comparison_df k)
      /\ prev_aov k = calculate_avg_order_value (comparison_df k)
      /\ prev_orders k = calculate_order_count (comparison_df k))
  /\ (df_empty (comparison_df k) = true ->
      prev_rev k = PyNone /\ prev_aov k = PyNone /\ prev_orders k = PyNone).
Proof.
  intro k. repeat (split; [reflexivity|]).
  split; intro H; subst k; unfold dashboard_kpis; simpl in *;
    rewrite H; simpl; repeat split.
Qed.

Lemma comparison_period_same_filter_same_calculators_witness :
  (prev_rev (dashboard_kpis scenario 2024 (analysis_month_of "Jan"))
   = PyNum 600
   /\ prev_orders (dashboard_kpis scenario 2024 (analysis_month_of "Jan"))
      = PyNum 3)
  /\ (prev_rev (dashboard_kpis scenario 2023 (analysis_month_of "All Months"))
      = PyNone
      /\ prev_aov (dashboard_kpis scenario 2023 (analysis_month_of "All Months"))
         = PyNone
      /\ prev_orders
           (dashboard_kpis scenario 2023 (analysis_month_of "All Months"))
         = PyNone).
Proof.
  split.
  - destruct (comparison_period_same_filter_same_calculators
                (list sale) spec_backend scenario 2024%Z
                (analysis_month_of "Jan"))
      as (_ & _ & _ & _ & _ & Hsome & _).
    destruct Hsome as (Hr & _ & Ho); [reflexivity|].
    rewrite Hr, Ho. split; vm_compute; reflexivity.
  - destruct (comparison_period_same_filter_same_calculators
                (list sale) spec_backend scenario 2023%Z
                (analysis_month_of "All Months"))
      as (_ & _ & _ & _ & _ & _ & Hnone).
    apply Hnone. reflexivity.
Defined.

(** The month selector offers all months or one of the twelve months. *)
Lemma analysis_month_of_options :
  map analysis_month_of month_options
  = None :: map Some [1; 2; 3; 4; 5; 6; 7; 8; 9; 10; 11; 12]%Z.
Proof. reflexivity. Qed.

(** With an empty comparison frame the three comparison cards show the
    no-data badge. *)
Lemma empty_comparison_no_data_badges
  (frame : Type) (B : Backend frame) (delivered : frame)
  (analysis_year : Z) (analysis_month : option Z) :
  let k := dashboard_kpis delivered analysis_year analysis_month in
  df_empty (comparison_df k) = true ->
  kpi_trends k = (no_data_badge, no_data_badge, no_data_badge).
Proof.
  intros k H. subst k. unfold kpi_trends, dashboard_kpis in *. simpl in *.
  rewrite H. reflexivity.
Qed.

(** ** Distinct values and descending order *)

Section Unique.
Context {A : Type} (eqb : A -> A -> bool).
Hypothesis eqb_eq : forall a b : A, eqb a b = true <-> a = b.

Lemma unique_In (l : list A) (x : A) : In x (unique eqb l) <-> In x l.
Proof.
  induction l as [|a l IH]; simpl; [tauto|].
  rewrite filter_In, IH, negb_true_iff.
  split.
  - intros [H | [H _]]; auto.
  - intros [H | H]; [now left|].
    destruct (eqb x a) eqn:E.
    + left. symmetry. now apply eqb_eq.
    + right. now split.
Qed.

Lemma unique_NoDup (l : list A) : NoDup (unique eqb l).
Proof.
  induction l as [|a l IH]; simpl; constructor.
  - rewrite filter_In, negb_true_iff. intros [_ H].
    assert (E : eqb a a = true) by now apply eqb_eq.
    congruence.
  - now apply NoDup_filter.
Qed.
End Unique.

Lemma insert_desc_In (x y : Z) (l : list Z) :
  In y (insert_desc x l) <-> y = x \/ In y l.
Proof.
  induction l as [|a l IH]; simpl.
  - intuition.
  - destruct (a <=? x)%Z; simpl; [intuition|].
    rewrite IH. intuition.
Qed.

Lemma insert_desc_sorted (x : Z) (l : list Z) :
  StronglySorted Z.gt l -> ~ In x l -> StronglySorted Z.gt (insert_desc x l).
Proof.
  induction l as [|a l IH]; intros Hs Hn; simpl.
  - repeat constructor.
  - inversion Hs as [|? ? Hs' Hall]; subst.
    destruct (a <=? x)%Z eqn:E.
    + apply Z.leb_le in E.
      assert (Hax : (x > a)%Z).
      { assert (a <> x) by (intro; subst; apply Hn; now left). lia. }
      constructor; [exact Hs|].
      constructor; [exact Hax|].
      rewrite Forall_forall in *. intros z Hz.
      specialize (Hall z Hz). lia.
    + apply Z.leb_gt in E. constructor.
      * apply IH; [exact Hs'|]. intro H. apply Hn. now right.
      * rewrite Forall_forall in *. intros z Hz.
        apply insert_desc_In in Hz. destruct Hz as [-> | Hz]; [lia|].
        now apply Hall.
Qed.

Lemma sorted_reverse_In (l : list Z) (y : Z) :
  In y (sorted_reverse l) <-> In y l.
Proof.
  induction l as [|a l IH]; simpl; [tauto|].
  rewrite insert_desc_In, IH. intuition.
Qed.

Lemma sorted_reverse_sorted (l : list Z) :
  NoDup l -> StronglySorted Z.gt (sorted_reverse l).
Proof.
  induction 1 as [|a l Hn Hd IH]; simpl.
  - constructor.
  - apply insert_desc_sorted; [exact IH|].
    now rewrite sorted_reverse_In.
Qed.

Lemma sorted_gt_NoDup (l : list Z) : StronglySorted Z.gt l -> NoDup l.
Proof.
  induction 1 as [|a l Hs IH Hall]; constructor; [|exact IH].
  intro Hin. rewrite Forall_forall in Hall. specialize (Hall a Hin). lia.
Qed.

Lemma list_index_nth (x : Z) (l : list Z) :
  In x l -> nth_error l (list_index x l) = Some x.
Proof.
  induction l as [|a l IH]; simpl; [tauto|].
  intro H. destruct (a =? x)%Z eqn:E.
  - apply Z.eqb_eq in E. now subst.
  - apply Z.eqb_neq in E. simpl. apply IH.
    destruct H as [H|H]; [contradiction | exact H].
Qed.

Lemma existsb_eqb_In (x : Z) (l : list Z) :
  existsb (Z.eqb x) l = true <-> In x l.
Proof.
  rewrite existsb_exists. split.
  - intros (y & Hy & E). apply Z.eqb_eq in E. now subst.
  - intro H. exists x. split; [exact H | apply Z.eqb_refl].
Qed.

(** C9.  The options of the year selector are exactly the years of the
    delivered records, each once, most recent first.  The default is 2023
    when 2023 is among them, and otherwise the first option, which is the
    most recent year. *)
Theorem year_selector_options_and_default (sales_df : list sale) :
  let years := available_years (delivered_of sales_df) in
  (forall y : Z,
     In y years <->
     exists r : sale,
       In r sales_df /\ order_status r = "delivered" /\ year r = Some y)
  /\ NoDup years
  /\ StronglySorted Z.gt years
  /\ (In 2023%Z years -> default_analysis_year years = Some 2023%Z)
  /\ (~ In 2023%Z years ->
      default_analysis_year years = hd_error years
      /\ forall y : Z,
           In y years ->
           exists top : Z,
             default_analysis_year years = Some top /\ (y <= top)%Z).
Proof.
  intro years.
  assert (Hsorted : StronglySorted Z.gt years).
  { apply sorted_reverse_sorted, unique_NoDup. apply Z.eqb_eq. }
  split; [|split; [|split; [|split]]].
  - intro y. unfold years, available_years, delivered_of.
    rewrite sorted_reverse_In, (unique_In Z.eqb Z.eqb_eq), dropna_In, in_map_iff.
    split.
    + intros (r & Hy & Hr). apply filter_In in Hr. destruct Hr as [Hr Hd].
      apply String.eqb_eq in Hd. now exists r.
    + intros (r & Hr & Hd & Hy). exists r. split; [exact Hy|].
      apply filter_In. split; [exact Hr|]. now apply String.eqb_eq.
  - now apply sorted_gt_NoDup.
  - exact Hsorted.
  - intro H. unfold default_analysis_year, default_yr_idx.
    rewrite (proj2 (existsb_eqb_In 2023 years) H).
    now apply list_index_nth.
  - intro H. unfold default_analysis_year, default_yr_idx.
    destruct (existsb (Z.eqb 2023) years) eqn:E.
    { apply existsb_eqb_In in E. contradiction. }
    split.
    + now destruct years.
    + intros y Hy. destruct years as [|top rest]; [contradiction|].
      exists top. split; [reflexivity|].
      destruct Hy as [-> | Hy]; [lia|].
      inversion Hsorted as [|? ? _ Hall]; subst.
      rewrite Forall_forall in Hall. specialize (Hall y Hy). lia.
Qed.

Lemma year_selector_options_and_default_witness :
  available_years (delivered_of sales_2022_2023) = [2023; 2022]%Z
  /\ default_analysis_year (available_years (delivered_of sales_2022_2023))
     = Some 2023%Z
  /\ default_analysis_year (available_years (delivered_of sales_2021_2022))
     = hd_error (available_years (delivered_of sales_2021_2022)).
Proof.
  split; [reflexivity|]. split.
  - destruct (year_selector_options_and_default sales_2022_2023)
      as (_ & _ & _ & H & _).
    apply H. vm_compute. left. reflexivity.
  - destruct (year_selector_options_and_default sales_2021_2022)
      as (_ & _ & _ & _ & H).
    apply H. vm_compute. intros [H1 | [H1 | []]]; discriminate H1.
Defined.

(** ** Mean review score per delivery bucket *)

Lemma str_In_dec (x : string) (l : list string) : {In x l} + {~ In x l}.
Proof. apply in_dec, string_dec. Qed.

(** Reading the grouped means by label. *)
Lemma find_grouped (f : string -> option Q) (keys : list string) (l : string) :
  match find (fun kv => String.eqb (fst kv) l) (map (fun k => (k, f k)) keys)
  with
  | Some kv => snd kv
  | None => None
  end
  = if str_In_dec l keys then f l else None.
Proof.
  induction keys as [|k keys IH]; simpl.
  - now destruct (str_In_dec l []).
  - destruct (String.eqb k l) eqn:E.
    + apply String.eqb_eq in E. subst k. simpl.
      destruct (str_In_dec l (l :: keys)) as [_|H]; [reflexivity|].
      exfalso. apply H. now left.
    + rewrite IH. apply String.eqb_neq in E.
      destruct (str_In_dec l keys) as [H|H];
        destruct (str_In_dec l (k :: keys)) as [H'|H']; try reflexivity.
      * exfalso. apply H'. now right.
      * exfalso. destruct H' as [H'|H']; [contradiction | exact (H H')].
Qed.

Lemma filter_in_bucket_absent (b : string) (df : list sat_row) :
  ~ In b (map delivery_bucket df) -> filter (in_bucket b) df = [].
Proof.
  induction df as [|r df IH]; simpl; [reflexivity|].
  intro H. unfold in_bucket at 1.
  destruct (String.eqb (delivery_bucket r) b) eqn:E.
  - apply String.eqb_eq in E. exfalso. apply H. now left.
  - apply IH. intro H'. apply H. now right.
Qed.

Lemma reindex_groupby_mean (df : list sat_row) (labels : list string) :
  reindex (groupby_mean df) labels =
  map (fun b => (b, series_mean (map review_score (filter (in_bucket b) df))))
      labels.
Proof.
  unfold reindex, groupby_mean. apply map_ext. intro b. f_equal.
  rewrite (find_grouped
             (fun k => series_mean (map review_score (filter (in_bucket k) df)))).
  destruct (str_In_dec b (unique String.eqb (map delivery_bucket df)))
    as [H|H]; [reflexivity|].
  rewrite (unique_In String.eqb String.eqb_eq) in H.
  now rewrite (filter_in_bucket_absent b df H).
Qed.

Lemma filter_bucket_known (b : string) (df : list sat_row) :
  b <> "Unknown" ->
  filter (in_bucket b)
    (filter (fun r => negb (String.eqb (delivery_bucket r) "Unknown")) df)
  = filter (in_bucket b) df.
Proof.
  intro Hb. induction df as [|r df IH]; simpl; [reflexivity|].
  unfold in_bucket at 2.
  destruct (String.eqb (delivery_bucket r) "Unknown") eqn:E; simpl.
  - apply String.eqb_eq in E.
    destruct (String.eqb (delivery_bucket r) b) eqn:E'; [|exact IH].
    apply String.eqb_eq in E'. congruence.
  - unfold in_bucket at 1.
    destruct (String.eqb (delivery_bucket r) b); [now rewrite IH | exact IH].
Qed.

Lemma bucket_means_by_label (sat_df : list sat_row) :
  bucket_means sat_df =
  map (fun b =>
         (b, series_mean (map review_score (filter (in_bucket b) sat_df))))
      buckets.
Proof.
  unfold bucket_means. rewrite reindex_groupby_mean.
  unfold buckets. simpl map.
  rewrite !filter_bucket_known by discriminate. reflexivity.
Qed.

(** C8.  Each of the three bucket means is the mean of the review scores
    of the records labelled with that bucket, so a record labelled
    [Unknown] contributes to none of them: adding or removing such a
    record anywhere leaves every bucket mean unchanged. *)
Theorem bucket_means_exclude_unknown :
  (forall sat_df : list sat_row,
     bucket_means sat_df =
     map (fun b =>
            (b, series_mean
                  (map review_score
                     (filter (fun r => String.eqb (delivery_bucket r) b)
                        sat_df))))
         ["1-3 days"; "4-7 days"; "8+ days"])
  /\ (forall (before after : list sat_row) (r : sat_row),
        delivery_bucket r = "Unknown" ->
        bucket_means (before ++ r :: after) = bucket_means (before ++ after)).
Proof.
  split.
  - intro sat_df. apply bucket_means_by_label.
  - intros before after r Hr. rewrite !bucket_means_by_label.
    apply map_ext_in. intros b Hb. f_equal. f_equal. f_equal.
    rewrite !filter_app. f_equal. simpl. unfold in_bucket at 1.
    rewrite Hr.
    destruct Hb as [<- | [<- | [<- | []]]]; reflexivity.
Qed.

Lemma bucket_means_exclude_unknown_witness :
  bucket_means ([scored "1-3 days" 5] ++ scored "Unknown" 1
                  :: [scored "8+ days" 2])
  = bucket_means ([scored "1-3 days" 5] ++ [scored "8+ days" 2])
  /\ bucket_means [scored "1-3 days" 5; scored "Unknown" 1;
                   scored "1-3 days" 4; scored "8+ days" 2]
     = [("1-3 days", Some (9 # 2)%Q); ("4-7 days", None);
        ("8+ days", Some 2%Q)].
Proof.
  destruct bucket_means_exclude_unknown as (_ & H).
  split.
  - apply H. reflexivity.
  - vm_compute. reflexivity.
Defined.

(** * Further properties of the helpers and of the script *)

(** ** Ranges *)

Lemma range_length (n : Z) : length (range n) = Z.to_nat n.
Proof. unfold range. now rewrite length_map, length_seq. Qed.

Lemma range_nth (n i : Z) :
  (0 <= i < n)%Z -> nth_error (range n) (Z.to_nat i) = Some i.
Proof.
  intro Hi. unfold range.
  rewrite nth_error_map, nth_error_seq.
  destruct (Nat.ltb (Z.to_nat i) (Z.to_nat n)) eqn:E.
  - simpl. f_equal. lia.
  - apply Nat.ltb_ge in E. lia.
Qed.

(** ** Rounding at the edges of [fmt_compact] *)

(** At a tie [round_half_even] returns an even integer. *)
Lemma round_half_even_tie (x : Q) :
  (Qabs (x - inject_Z (Fmt.round_half_even x)) == 1 # 2)%Q ->
  Z.even (Fmt.round_half_even x) = true.
Proof.
  pose proof (py_mod1_range x) as [Hlo Hhi].
  unfold Fmt.round_half_even.
  destruct (Fmt.py_mod1 x ?= 1 # 2)%Q eqn:Hc.
  - intros _. destruct (Z.even (Qfloor x)) eqn:Ev; [exact Ev|].
    rewrite Z.even_add, Ev. reflexivity.
  - apply Qlt_alt in Hc. unfold Fmt.py_mod1 in *. intro H.
    rewrite Qabs_pos in H by lra. lra.
  - apply Qgt_alt in Hc. unfold Fmt.py_mod1 in *. intro H.
    rewrite inject_Z_plus in H. change (inject_Z 1) with 1%Q in H.
    rewrite Qabs_neg in H by lra. lra.
Qed.

Lemma inject_Z_lt_1 (a b : Z) :
  (Qabs (inject_Z a - inject_Z b) < 1)%Q -> a = b.
Proof.
  intro H. apply Qabs_Qlt_condition in H. destruct H as [H1 H2].
  unfold Qlt, Qminus, Qplus, Qopp, inject_Z in H1, H2. simpl in H1, H2. lia.
Qed.

(** An even integer within a half of [x] is what [round_half_even]
    returns. *)
Lemma round_half_even_to_even (x : Q) (n : Z) :
  Z.even n = true ->
  (Qabs (x - inject_Z n) <= 1 # 2)%Q ->
  Fmt.round_half_even x = n.
Proof.
  intros Hev Hn.
  pose proof (round_half_even_near x) as Hr.
  pose proof (round_half_even_tie x) as Htie.
  set (r := Fmt.round_half_even x) in *.
  apply Qabs_Qle_condition in Hn. destruct Hn as [Hn1 Hn2].
  destruct (Qlt_le_dec (Qabs (x - inject_Z r)) (1 # 2)) as [Hlt | Hge].
  - apply inject_Z_lt_1. apply Qabs_Qlt_condition in Hlt.
    apply Qabs_Qlt_condition. destruct Hlt. split; lra.
  - assert (Heq : (Qabs (x - inject_Z r) == 1 # 2)%Q) by lra.
    specialize (Htie Heq).
    apply Qabs_Qle_condition in Hr. destruct Hr as [Hr1 Hr2].
    assert (Hd : (-1 <= r - n <= 1)%Z).
    { assert (H1 : (inject_Z r - inject_Z n <= 1)%Q) by lra.
      assert (H2 : (-1 <= inject_Z r - inject_Z n)%Q) by lra.
      unfold Qle, Qminus, Qplus, Qopp, inject_Z in H1, H2.
      simpl in H1, H2. lia. }
    assert (Hcases : r = n \/ r = (n + 1)%Z \/ r = (n - 1)%Z) by lia.
    destruct Hcases as [E | [E | E]]; [exact E | |];
      rewrite E in Htie;
      [rewrite Z.even_add in Htie | rewrite Z.even_sub in Htie];
      rewrite Hev in Htie; discriminate Htie.
Qed.

Lemma format_f_0_to_even (x : Q) (n : Z) :
  Z.even n = true -> (Qabs (Qabs x - inject_Z n) <= 1 # 2)%Q ->
  Fmt.format_f 0 x = sign_of x ++ Fmt.show_nat n.
Proof.
  intros Hev Hn. unfold Fmt.format_f, sign_of. simpl Z.of_nat.
  rewrite Z.pow_0_r, Z.div_1_r.
  assert (Hs : (Qabs x * inject_Z 1 == Qabs x)%Q)
    by (change (inject_Z 1) with 1%Q; ring).
  rewrite (round_half_even_proper _ _ Hs).
  rewrite (round_half_even_to_even _ n Hev Hn).
  now rewrite str_app_nil_r.
Qed.

Lemma Qabs_div_pos (v c : Q) : (0 < c)%Q -> (Qabs (v / c) == Qabs v / c)%Q.
Proof.
  intro Hc. unfold Qdiv. rewrite Qabs_Qmult.
  rewrite (Qabs_pos (/ c)); [reflexivity|].
  apply Qlt_le_weak, Qinv_lt_0_compat, Hc.
Qed.

(** X3.  A value just under a unit threshold is printed as 1000 of the
    smaller unit: from 999,500 up to a million the output is [$1000K],
    and from 999.5 up to a thousand it is [$1000] (after the sign of a
    negative value). *)
Theorem fmt_compact_rounds_up_to_1000 (v : Q) :
  ((999500 <= Qabs v)%Q -> (Qabs v < 1000000)%Q ->
   fmt_compact v = "$" ++ sign_of v ++ "1000K")
  /\ ((1999 # 2 <= Qabs v)%Q -> (Qabs v < 1000)%Q ->
      fmt_compact v = "$" ++ sign_of v ++ "1000").
Proof.
  split.
  - intros Hlo Hhi.
    rewrite fmt_compact_thousands by lra.
    rewrite (format_f_0_to_even (v / 1000) 1000).
    + rewrite sign_of_div by lra. now rewrite !str_app_assoc.
    + reflexivity.
    + rewrite Qabs_div_pos by lra.
      apply Qabs_Qle_condition.
      assert (H1 : (1999 # 2 <= Qabs v / 1000)%Q)
        by (apply Qle_shift_div_l; lra).
      assert (H2 : (Qabs v / 1000 <= 1000)%Q)
        by (apply Qle_shift_div_r; lra).
      change (inject_Z 1000) with 1000%Q. split; lra.
  - intros Hlo Hhi.
    rewrite fmt_compact_units by lra.
    rewrite (format_f_0_to_even v 1000).
    + reflexivity.
    + reflexivity.
    + apply Qabs_Qle_condition. change (inject_Z 1000) with 1000%Q.
      split; lra.
Qed.

Lemma fmt_compact_rounds_up_to_1000_witness :
  fmt_compact 999700 = "$" ++ sign_of 999700 ++ "1000K"
  /\ fmt_compact (- (9996 # 10)) = "$" ++ sign_of (- (9996 # 10)) ++ "1000".
Proof.
  split.
  - apply (fmt_compact_rounds_up_to_1000 999700);
      vm_compute; [discriminate | reflexivity].
  - apply (fmt_compact_rounds_up_to_1000 (- (9996 # 10)));
      vm_compute; [discriminate | reflexivity].
Defined.

(** X5.  A positive value and its opposite print the same digits and
    suffix; the negative one has a minus sign between the dollar sign and
    the digits. *)
Theorem fmt_compact_opposite (v : Q) :
  (0 < v)%Q ->
  exists body : string,
    fmt_compact v = "$" ++ body /\ fmt_compact (- v) = "$-" ++ body.
Proof.
  intro Hv.
  assert (Hneg : (- v < 0)%Q) by lra.
  destruct (fmt_compact_negative_inner_sign (- v) Hneg) as (body & E1 & E2).
  exists body. split; [|exact E2].
  rewrite <- E1. apply fmt_compact_proper. ring.
Qed.

Lemma fmt_compact_opposite_witness :
  exists body : string,
    fmt_compact 45000 = "$" ++ body /\ fmt_compact (- 45000) = "$-" ++ body.
Proof.
  apply (fmt_compact_opposite 45000). vm_compute. reflexivity.
Defined.

(** ** Direction and colour of a trend badge *)




(** ** The average-monthly-growth card *)

(** X8.  With no defined delta the growth card reads [+0.00%] with the
    red colour and the down arrow; a positive average is green with an up
    arrow and a plus sign, a negative one red with a down arrow and a
    minus sign. *)
Theorem mom_card_states :
  (forall s : series,
        Forall (fun d => d = None) s ->
        mom_value (avg_mom_of s) = "+0.00%"
        /\ mom_color (avg_mom_of s) = "#dc2626"
        /\ mom_arrow (avg_mom_of s) = "↓")
  /\ (forall a : Q,
        (0 < a)%Q ->
        mom_color (Some a) = "#16a34a"
        /\ mom_arrow (Some a) = "↑"
        /\ mom_value (Some a) = "+" ++ Fmt.format_f 2 (Qabs a) ++ "%")
  /\ (forall a : Q,
        (a < 0)%Q ->
        mom_color (Some a) = "#dc2626"
        /\ mom_arrow (Some a) = "↓"
        /\ mom_value (Some a) = "-" ++ Fmt.format_f 2 (Qabs a) ++ "%").
Proof.
  split; [|split].
  - intros s H. apply dropna_nil in H.
    unfold avg_mom_of. rewrite H. repeat split.
  - intros a Ha.
    assert (E : Fmt.Qltb 0 a = true) by now apply Qltb_lt.
    assert (E' : Fmt.Qltb a 0 = false) by (apply Qltb_ge; lra).
    assert (Habs : (a == Qabs a)%Q) by (symmetry; apply Qabs_pos; lra).
    unfold mom_color, mom_arrow, mom_value, mom_positive, format_f_plus.
    rewrite E, E', (format_f_proper 2 _ _ Habs). repeat split.
  - intros a Ha.
    assert (E : Fmt.Qltb 0 a = false) by (apply Qltb_ge; lra).
    assert (E' : Fmt.Qltb a 0 = true) by now apply Qltb_lt.
    assert (Habs : (- a == Qabs a)%Q) by (symmetry; apply Qabs_neg; lra).
    unfold mom_color, mom_arrow, mom_value, mom_positive, format_f_plus.
    rewrite E, E', (format_f_negative 2 a Ha), (format_f_proper 2 _ _ Habs).
    repeat split.
Qed.

Lemma mom_card_states_witness :
  (mom_value (avg_mom_of [None; None]) = "+0.00%"
   /\ mom_color (avg_mom_of [None; None]) = "#dc2626"
   /\ mom_arrow (avg_mom_of [None; None]) = "↓")
  /\ mom_value (Some (- (3 # 2))%Q)
     = "-" ++ Fmt.format_f 2 (Qabs (- (3 # 2))) ++ "%".
Proof.
  destruct mom_card_states as (Hnone & _ & Hneg).
  split.
  - apply Hnone. repeat constructor.
  - apply (Hneg (- (3 # 2))%Q). vm_compute. reflexivity.
Defined.

(** ** Means of bounded scores *)

Lemma Qsum_bounds (l : list Q) (lo hi : Q) :
  Forall (fun x => (lo <= x <= hi)%Q) l ->
  (inject_Z (Z.of_nat (length l)) * lo <= Qsum l
   <= inject_Z (Z.of_nat (length l)) * hi)%Q.
Proof.
  induction 1 as [|x l [Hx1 Hx2] Hl [IH1 IH2]].
  - simpl. change (inject_Z 0) with 0%Q. split; lra.
  - cbn [length Qsum fold_right].
    rewrite Nat2Z.inj_succ. unfold Z.succ. rewrite inject_Z_plus.
    change (inject_Z 1) with 1%Q.
    change (fold_right Qplus 0%Q l) with (Qsum l).
    split; lra.
Qed.

Lemma series_mean_bounds (s : series) (lo hi m : Q) :
  (forall x : Q, In (Some x) s -> (lo <= x <= hi)%Q) ->
  series_mean s = Some m -> (lo <= m <= hi)%Q.
Proof.
  intros Hall Hm. unfold series_mean in Hm.
  assert (Hf : Forall (fun x => (lo <= x <= hi)%Q) (dropna s)).
  { rewrite Forall_forall. intros x Hx. apply Hall. now apply dropna_In. }
  destruct (dropna s) as [|d ds] eqn:E; [discriminate|].
  injection Hm as <-.
  pose proof (Qsum_bounds _ lo hi Hf) as [H1 H2].
  assert (Hlen : (0 < inject_Z (Z.of_nat (length (d :: ds))))%Q).
  { unfold Qlt, inject_Z. simpl. lia. }
  split.
  - apply Qle_shift_div_l; [exact Hlen|]. rewrite Qmult_comm. exact H1.
  - apply Qle_shift_div_r; [exact Hlen|]. rewrite Qmult_comm. exact H2.
Qed.

Lemma series_mean_none (s : series) :
  series_mean s = None <-> Forall (fun d => d = None) s.
Proof.
  rewrite <- dropna_nil. unfold series_mean.
  destruct (dropna s); split; intro H; try reflexivity; discriminate.
Qed.





(** X10.  When every review score that is present lies between [lo] and
    [hi], so does every bucket mean that is defined; scores from 1 to 5
    keep the bars inside the chart's range from 0 to 5.4. *)
Theorem bucket_means_within_scores (sat_df : list sat_row) (lo hi : Q) :
  (forall (r : sat_row) (score : Q),
     In r sat_df -> review_score r = Some score -> (lo <= score <= hi)%Q) ->
  forall (b : string) (m : Q),
    In (b, Some m) (bucket_means sat_df) -> (lo <= m <= hi)%Q.
Proof.
  intros Hall b m Hin.
  rewrite bucket_means_by_label in Hin.
  apply in_map_iff in Hin. destruct Hin as (b' & E & _).
  injection E as -> Hm.
  apply (series_mean_bounds _ lo hi m) in Hm; [exact Hm|].
  intros x Hx. apply in_map_iff in Hx. destruct Hx as (r & Hr & Hin).
  apply filter_In in Hin. destruct Hin as [Hin _].
  now apply (Hall r).
Qed.

Lemma bucket_means_within_scores_witness :
  (1 <= 9 # 2 <= 5)%Q.
Proof.
  apply (bucket_means_within_scores
           [scored "1-3 days" 5; scored "Unknown" 1; scored "1-3 days" 4]
           1 5) with (b := "1-3 days").
  - intros r score [<- | [<- | [<- | []]]] E; injection E as <-;
      vm_compute; split; discriminate.
  - vm_compute. left. reflexivity.
Defined.

(** ** The monthly revenue series *)

Lemma find_by_month (f : Z -> Q) (keys : list Z) (m : Z) :
  find (fun kv => (fst kv =? m)%Z) (map (fun k => (k, f k)) keys)
  = if existsb (Z.eqb m) keys then Some (m, f m) else None.
Proof.
  induction keys as [|k keys IH]; simpl; [reflexivity|].
  rewrite (Z.eqb_sym m k).
  destruct (k =? m)%Z eqn:E; simpl.
  - apply Z.eqb_eq in E. now subst.
  - exact IH.
Qed.

Lemma months_present (df : list sale) (m : Z) :
  existsb (Z.eqb m) (unique Z.eqb (dropna (map month df)))
  = existsb (in_month m) df.
Proof.
  apply eq_true_iff_eq.
  rewrite existsb_eqb_In, (unique_In Z.eqb Z.eqb_eq), dropna_In,
    in_map_iff, existsb_exists.
  split; intros (r & H1 & H2).
  - exists r. split; [exact H2|]. unfold in_month. rewrite H1.
    apply Z.eqb_refl.
  - exists r. unfold in_month in H2. split; [|exact H1].
    destruct (month r) as [rm|]; [|discriminate].
    apply Z.eqb_eq in H2. now subst.
Qed.

Lemma monthly_of_entries (df : list sale) :
  monthly_of df = monthly_entries df.
Proof.
  unfold monthly_of, monthly_entries, reindex_int, groupby_month_sum.
  induction (range_from 1 13) as [|m idx IH]; simpl; [reflexivity|].
  rewrite (find_by_month
             (fun k => Qsum (map price (filter (in_month k) df)))).
  rewrite months_present.
  destruct (existsb (in_month m) df); simpl; now rewrite IH.
Qed.

Lemma range_from_In (a b m : Z) :
  In m (range_from a b) <-> (a <= m < b)%Z.
Proof.
  unfold range_from. rewrite in_map_iff. split.
  - intros (i & <- & Hi). apply in_seq in Hi. lia.
  - intro H. exists (Z.to_nat (m - a)). split; [lia|].
    apply in_seq. lia.
Qed.

Lemma flat_map_keys_In (c : Z -> bool) (f : Z -> Q) (idx : list Z) (k : Z) :
  In k (map fst (flat_map (fun m => if c m then [(m, f m)] else []) idx)) ->
  In k idx.
Proof.
  induction idx as [|a idx IH]; simpl; [tauto|].
  rewrite map_app, in_app_iff. intros [H | H]; [|right; now apply IH].
  destruct (c a); simpl in H; [|contradiction].
  destruct H as [H | []]. now left.
Qed.

Lemma flat_map_keys_sorted (c : Z -> bool) (f : Z -> Q) (idx : list Z) :
  StronglySorted Z.lt idx ->
  StronglySorted Z.lt
    (map fst (flat_map (fun m => if c m then [(m, f m)] else []) idx)).
Proof.
  induction 1 as [|a idx Hs IH Hall]; simpl; [constructor|].
  destruct (c a); simpl; [|exact IH].
  constructor; [exact IH|].
  rewrite Forall_forall in *. intros k Hk.
  apply Hall. now apply (flat_map_keys_In c f).
Qed.

(** X12.  The monthly series holds exactly the calendar months 1 to 12
    that occur among the rows, in calendar order, each with the sum of
    the prices of its rows; rows without a month appear nowhere. *)
Theorem monthly_series_entries (df : list sale) :
  (forall (m : Z) (v : Q),
     In (m, v) (monthly_of df) <->
     (1 <= m <= 12)%Z
     /\ (exists r : sale, In r df /\ month r = Some m)
     /\ v = Qsum (map price (filter (in_month m) df)))
  /\ StronglySorted Z.lt (map fst (monthly_of df)).
Proof.
  rewrite monthly_of_entries. unfold monthly_entries. split.
  - intros m v. rewrite in_flat_map. split.
    + intros (k & Hk & Hin). apply range_from_In in Hk.
      destruct (existsb (in_month k) df) eqn:E; [|contradiction].
      destruct Hin as [Hin | []]. injection Hin as -> <-.
      split; [lia|]. split; [|reflexivity].
      apply existsb_exists in E. destruct E as (r & Hr & Hm).
      exists r. split; [exact Hr|]. unfold in_month in Hm.
      destruct (month r) as [rm|]; [|discriminate].
      apply Z.eqb_eq in Hm. now subst.
    + intros (Hm & (r & Hr & Hmr) & ->). exists m.
      split; [apply range_from_In; lia|].
      assert (E : existsb (in_month m) df = true).
      { apply existsb_exists. exists r. split; [exact Hr|].
        unfold in_month. rewrite Hmr. apply Z.eqb_refl. }
      rewrite E. now left.
  - apply flat_map_keys_sorted.
    change (range_from 1 13) with [1; 2; 3; 4; 5; 6; 7; 8; 9; 10; 11; 12]%Z.
    repeat first [ apply SSorted_cons | apply SSorted_nil
                 | apply Forall_cons | apply Forall_nil | lia ].
Qed.

Lemma monthly_series_entries_witness :
  In (2%Z, Qsum (map price (filter (in_month 2) scenario)))
     (monthly_of scenario).
Proof.
  destruct (monthly_series_entries scenario) as (H & _).
  apply H. split; [lia|]. split; [|reflexivity].
  exists (line "o4" 150 2023 2). split; [|reflexivity].
  vm_compute. right. right. right. left. reflexivity.
Defined.

Lemma Qsum_app (a b : list Q) : (Qsum (a ++ b) == Qsum a + Qsum b)%Q.
Proof.
  unfold Qsum. induction a as [|x a IH]; simpl; [ring|].
  rewrite IH. ring.
Qed.

(** The sum of the monthly entries over any months is the sum of the
    per-month sums. *)
Lemma monthly_entries_sum (df : list sale) (idx : list Z) :
  (Qsum (map snd
           (flat_map
              (fun m =>
                 if existsb (in_month m) df
                 then [(m, Qsum (map price (filter (in_month m) df)))]
                 else [])
              idx))
   == Qsum (map (fun m => Qsum (map price (filter (in_month m) df))) idx))%Q.
Proof.
  induction idx as [|m idx IH]; simpl; [reflexivity|].
  rewrite map_app, Qsum_app. unfold Qsum in *. rewrite IH.
  destruct (existsb (in_month m) df) eqn:E; cbn [map snd fold_right]; [ring|].
  assert (Hnil : filter (in_month m) df = []).
  { clear IH. induction df as [|r df IHdf]; simpl; [reflexivity|].
    simpl in E. apply orb_false_iff in E. destruct E as [E1 E2].
    rewrite E1. now apply IHdf. }
  rewrite Hnil. cbn [map fold_right]. ring.
Qed.

Lemma indicator_sum (k : Z) (p : Q) (idx : list Z) :
  NoDup idx ->
  (Qsum (map (fun m => if (k =? m)%Z then p else 0%Q) idx)
   == if existsb (Z.eqb k) idx then p else 0)%Q.
Proof.
  induction 1 as [|m idx Hn Hd IH]; simpl; [reflexivity|].
  unfold Qsum in *. rewrite IH.
  destruct (k =? m)%Z eqn:E; simpl.
  - apply Z.eqb_eq in E. subst m.
    destruct (existsb (Z.eqb k) idx) eqn:E'; [|ring].
    apply existsb_eqb_In in E'. contradiction.
  - ring.
Qed.

Lemma per_month_sums (df : list sale) (idx : list Z) :
  NoDup idx ->
  (Qsum (map (fun m => Qsum (map price (filter (in_month m) df))) idx)
   == Qsum (map price
              (filter (fun r => match month r with
                                | Some k => existsb (Z.eqb k) idx
                                | None => false
                                end) df)))%Q.
Proof.
  intro Hnd. induction df as [|r df IH].
  - simpl. induction idx as [|m idx IHi]; simpl; [reflexivity|].
    inversion Hnd; subst. unfold Qsum in *. rewrite IHi by assumption. ring.
  - assert (Hsplit :
      (Qsum (map (fun m => Qsum (map price (filter (in_month m) (r :: df))))
               idx)
       == Qsum (map (fun m => if in_month m r then price r else 0%Q) idx)
          + Qsum (map (fun m => Qsum (map price (filter (in_month m) df)))
                    idx))%Q).
    { clear IH Hnd. induction idx as [|m idx IHi]; simpl; [ring|].
      unfold Qsum in *. rewrite IHi.
      destruct (in_month m r); simpl; ring. }
    rewrite Hsplit, IH. clear Hsplit IH.
    simpl filter. unfold in_month.
    destruct (month r) as [k|].
    + rewrite (indicator_sum k (price r) idx Hnd).
      destruct (existsb (Z.eqb k) idx); simpl; ring.
    + assert (E0 : (Qsum (map (fun _ : Z => 0%Q) idx) == 0)%Q).
      { clear Hnd. induction idx as [|m idx IHi]; simpl; [reflexivity|].
        unfold Qsum in *. rewrite IHi. ring. }
      rewrite E0. ring.
Qed.

Lemma dated_months (r : sale) :
  match month r with
  | Some k => existsb (Z.eqb k) (range_from 1 13)
  | None => false
  end = dated r.
Proof.
  unfold dated. destruct (month r) as [k|]; [|reflexivity].
  apply eq_true_iff_eq.
  rewrite existsb_eqb_In, range_from_In, andb_true_iff, !Z.leb_le. lia.
Qed.

(** X13.  The monthly revenues add up to the revenue of the rows dated
    in one of the twelve months: no row is counted twice and none of them
    is lost. *)
Theorem monthly_series_total (df : list sale) :
  (Qsum (map snd (monthly_of df)) == Qsum (map price (filter dated df)))%Q.
Proof.
  rewrite monthly_of_entries. unfold monthly_entries.
  rewrite monthly_entries_sum, per_month_sums.
  - assert (E : filter (fun r => match month r with
                                 | Some k => existsb (Z.eqb k) (range_from 1 13)
                                 | None => false
                                 end) df = filter dated df).
    { apply filter_ext. intro r. apply dated_months. }
    rewrite E. reflexivity.
  - change (range_from 1 13) with [1; 2; 3; 4; 5; 6; 7; 8; 9; 10; 11; 12]%Z.
    repeat constructor; simpl; intuition lia.
Qed.

(** ** The category chart *)

Lemma bar_denominator_pos (n : Z) : (0 < inject_Z (Z.max (n - 1) 1))%Q.
Proof. unfold Qlt, inject_Z. simpl. lia. Qed.

Lemma bar_opacity_first (n : Z) : (bar_opacity n 0 == 35 # 100)%Q.
Proof.
  unfold bar_opacity. pose proof (bar_denominator_pos n).
  change (inject_Z 0) with 0%Q. field. lra.
Qed.

Lemma bar_opacity_last (n : Z) :
  (2 <= n)%Z -> (bar_opacity n (n - 1) == 1)%Q.
Proof.
  intro Hn. unfold bar_opacity. rewrite Z.max_l by lia.
  assert (Hd : (0 < inject_Z (n - 1))%Q)
    by (unfold Qlt, inject_Z; simpl; lia).
  field. lra.
Qed.

Lemma bar_colors_length (n : Z) : length (bar_colors n) = Z.to_nat n.
Proof. unfold bar_colors. now rewrite length_map, range_length. Qed.

Lemma bar_colors_nth (n i : Z) :
  (0 <= i < n)%Z ->
  nth_error (bar_colors n) (Z.to_nat i)
  = Some ("rgba(44,95,138," ++ Fmt.format_f 2 (bar_opacity n i) ++ ")").
Proof.
  intro Hi. unfold bar_colors. now rewrite nth_error_map, (range_nth n i Hi).
Qed.

(** X14.  For [n] bars there are [n] colours.  The opacity never divides
    by zero, stays between 0.35 and 1 and grows strictly with the bar
    index; the first colour has opacity 0.35, and with at least two bars
    the last one has opacity 1.00. *)
Theorem bar_colors_opacity (n : Z) :
  (1 <= n)%Z ->
  length (bar_colors n) = Z.to_nat n
  /\ (forall i : Z,
        (0 <= i < n)%Z -> (35 # 100 <= bar_opacity n i <= 1)%Q)
  /\ (forall i j : Z,
        (0 <= i)%Z -> (i < j)%Z -> (j < n)%Z ->
        (bar_opacity n i < bar_opacity n j)%Q)
  /\ nth_error (bar_colors n) 0 = Some "rgba(44,95,138,0.35)"
  /\ ((2 <= n)%Z ->
      nth_error (bar_colors n) (Z.to_nat (n - 1))
      = Some "rgba(44,95,138,1.00)").
Proof.
  intro Hn. pose proof (bar_denominator_pos n) as Hd.
  split; [apply bar_colors_length|]. split; [|split; [|split]].
  - intros i Hi. unfold bar_opacity.
    assert (Hi0 : (0 <= inject_Z i)%Q) by (unfold Qle, inject_Z; simpl; lia).
    assert (HiD : (inject_Z i <= inject_Z (Z.max (n - 1) 1))%Q)
      by (unfold Qle, inject_Z; simpl; lia).
    assert (H1 : (0 <= (65 # 100) * inject_Z i
                       / inject_Z (Z.max (n - 1) 1))%Q)
      by (apply Qle_shift_div_l; lra).
    assert (H2 : ((65 # 100) * inject_Z i / inject_Z (Z.max (n - 1) 1)
                  <= 65 # 100)%Q)
      by (apply Qle_shift_div_r; lra).
    split; lra.
  - intros i j Hi Hij Hj. unfold bar_opacity.
    assert (Hlt : (inject_Z i < inject_Z j)%Q)
      by (unfold Qlt, inject_Z; simpl; lia).
    assert (H : ((65 # 100) * inject_Z i / inject_Z (Z.max (n - 1) 1)
                 < (65 # 100) * inject_Z j / inject_Z (Z.max (n - 1) 1))%Q).
    { unfold Qdiv. apply Qmult_lt_compat_r;
        [apply Qinv_lt_0_compat; exact Hd | lra]. }
    lra.
  - change 0%nat with (Z.to_nat 0). rewrite bar_colors_nth by lia.
    now rewrite (format_f_proper 2 _ _ (bar_opacity_first n)).
  - intro H2. rewrite bar_colors_nth by lia.
    now rewrite (format_f_proper 2 _ _ (bar_opacity_last n H2)).
Qed.

Lemma bar_colors_opacity_witness :
  length (bar_colors 3) = Z.to_nat 3
  /\ (bar_opacity 3 0 < bar_opacity 3 2)%Q
  /\ nth_error (bar_colors 3) (Z.to_nat (3 - 1))
     = Some "rgba(44,95,138,1.00)".
Proof.
  destruct (bar_colors_opacity 3) as (Hlen & _ & Hmono & _ & Hlast); [lia|].
  split; [exact Hlen|]. split.
  - apply Hmono; lia.
  - apply Hlast. lia.
Defined.




(** ** The year options as a set *)

Lemma sorted_gt_head_max (a : Z) (l : list Z) :
  StronglySorted Z.gt (a :: l) -> forall x : Z, In x l -> (x < a)%Z.
Proof.
  intros H x Hx. inversion H as [|? ? _ Hall]; subst.
  rewrite Forall_forall in Hall. specialize (Hall x Hx). lia.
Qed.

Lemma sorted_gt_unique (l1 l2 : list Z) :
  StronglySorted Z.gt l1 -> StronglySorted Z.gt l2 ->
  (forall x : Z, In x l1 <-> In x l2) -> l1 = l2.
Proof.
  revert l2. induction l1 as [|a l1 IH]; intros l2 H1 H2 Hin.
  - destruct l2 as [|b l2]; [reflexivity|].
    exfalso. apply (Hin b). now left.
  - destruct l2 as [|b l2].
    { exfalso. apply (Hin a). now left. }
    pose proof (sorted_gt_head_max a l1 H1) as Ha.
    pose proof (sorted_gt_head_max b l2 H2) as Hb.
    assert (Hab : a = b).
    { destruct (proj1 (Hin a) (or_introl eq_refl)) as [E | Hl];
        [now symmetry|].
      destruct (proj2 (Hin b) (or_introl eq_refl)) as [E | Hl'];
        [exact E|].
      specialize (Ha b Hl'). specialize (Hb a Hl). lia. }
    subst b. f_equal.
    inversion H1; subst. inversion H2; subst.
    apply IH; try assumption.
    intro x. split; intro Hx.
    + destruct (proj1 (Hin x) (or_intror Hx)) as [E | Hl]; [|exact Hl].
      subst x. specialize (Ha a Hx). lia.
    + destruct (proj2 (Hin x) (or_intror Hx)) as [E | Hl]; [|exact Hl].
      subst x. specialize (Hb a Hx). lia.
Qed.

Lemma available_years_In (delivered : list sale) (y : Z) :
  In y (available_years delivered)
  <-> exists r : sale, In r delivered /\ year r = Some y.
Proof.
  unfold available_years.
  rewrite sorted_reverse_In, (unique_In Z.eqb Z.eqb_eq), dropna_In, in_map_iff.
  split; intros (r & H1 & H2); exists r; split; assumption.
Qed.

Lemma available_years_sorted (delivered : list sale) :
  StronglySorted Z.gt (available_years delivered).
Proof.
  apply sorted_reverse_sorted, unique_NoDup. apply Z.eqb_eq.
Qed.

(** X20.  The year options depend only on which years occur among the
    delivered rows: two tables with the same delivered years, in any
    order and with any repetition, give the same list of options. *)
Theorem available_years_by_set (sales_a sales_b : list sale) :
  (forall y : Z,
     (exists r : sale,
        In r sales_a /\ order_status r = "delivered" /\ year r = Some y)
     <-> (exists r : sale,
            In r sales_b /\ order_status r = "delivered" /\ year r = Some y)) ->
  available_years (delivered_of sales_a)
  = available_years (delivered_of sales_b).
Proof.
  intro Hset.
  assert (Hdel : forall (df : list sale) (y : Z),
            In y (available_years (delivered_of df)) <->
            exists r : sale,
              In r df /\ order_status r = "delivered" /\ year r = Some y).
  { intros df y. rewrite available_years_In. unfold delivered_of.
    split; intros (r & H1 & H2).
    - apply filter_In in H1. destruct H1 as [H1 Hd].
      apply String.eqb_eq in Hd. now exists r.
    - destruct H2 as [Hd Hy]. exists r. split; [|exact Hy].
      apply filter_In. split; [exact H1|]. now apply String.eqb_eq. }
  apply sorted_gt_unique; try apply available_years_sorted.
  intro y. rewrite !Hdel. apply Hset.
Qed.

Lemma available_years_by_set_witness :
  available_years (delivered_of sales_2021_2022)
  = available_years (delivered_of (rev sales_2021_2022 ++ sales_2021_2022)).
Proof.
  apply available_years_by_set. intro y.
  split; intros (r & Hin & Hd & Hy); exists r;
    (split; [|split; assumption]).
  - apply in_or_app. now right.
  - apply in_app_or in Hin. destruct Hin as [Hin | Hin]; [|exact Hin].
    now apply in_rev.
Defined.

(** ** The comparison cards *)



(** * The helpers on binary64 numbers *)

(** ** Signs in binary64 arithmetic *)

Lemma iter_pos_shr_1_nonneg (p : positive) (mrs : shr_record) :
  (0 <= shr_m mrs)%Z -> (0 <= shr_m (iter_pos shr_1 p mrs))%Z.
Proof.
  assert (H1 : forall r, (0 <= shr_m r)%Z -> (0 <= shr_m (shr_1 r))%Z).
  { intros [m r s] H. simpl in H. destruct m as [|[q|q|]|q]; simpl; lia. }
  revert mrs. induction p as [p IH|p IH|]; intros mrs H; simpl.
  - apply IH, IH, H1, H.
  - apply IH, IH, H.
  - apply H1, H.
Qed.

Lemma shr_fexp_nonneg (m e : Z) (l : location) :
  (0 <= m)%Z -> (0 <= shr_m (fst (shr_fexp B64.prec B64.emax m e l)))%Z.
Proof.
  intro H. unfold shr_fexp, shr.
  assert (H0 : (0 <= shr_m (shr_record_of_loc m l))%Z)
    by (destruct l as [|[| |]]; exact H).
  destruct (fexp B64.prec B64.emax (Zdigits2 m + e) - e)%Z; simpl;
    [exact H0 | now apply iter_pos_shr_1_nonneg | exact H0].
Qed.

Lemma round_nearest_even_nonneg (m : Z) (l : location) :
  (0 <= m)%Z -> (0 <= round_nearest_even m l)%Z.
Proof.
  intro H. destruct l as [|[| |]]; simpl; try lia.
  destruct (Z.even m); lia.
Qed.

Lemma binary_round_aux_signed (s : bool) (m e : Z) (l : location) :
  (0 <= m)%Z -> signed s (binary_round_aux B64.prec B64.emax s m e l).
Proof.
  intro H. unfold binary_round_aux.
  pose proof (shr_fexp_nonneg m e l H) as H1.
  destruct (shr_fexp B64.prec B64.emax m e l) as [mrs' e'].
  simpl fst in H1.
  pose proof (shr_fexp_nonneg _ e' loc_Exact
                (round_nearest_even_nonneg _ (loc_of_shr_record mrs') H1))
    as H2.
  destruct (shr_fexp B64.prec B64.emax
              (round_nearest_even (shr_m mrs') (loc_of_shr_record mrs'))
              e' loc_Exact) as [mrs'' e''].
  simpl fst in H2.
  destruct (shr_m mrs'') as [|q|q]; [exact eq_refl | | exfalso; lia].
  destruct (e'' <=? B64.emax - B64.prec)%Z; exact eq_refl.
Qed.

Lemma binary_round_aux_opp (s : bool) (m e : Z) (l : location) :
  binary_round_aux B64.prec B64.emax (negb s) m e l
  = SFopp (binary_round_aux B64.prec B64.emax s m e l).
Proof.
  unfold binary_round_aux.
  destruct (shr_fexp B64.prec B64.emax m e l) as [mrs' e'].
  destruct (shr_fexp B64.prec B64.emax
              (round_nearest_even (shr_m mrs') (loc_of_shr_record mrs'))
              e' loc_Exact) as [mrs'' e''].
  destruct (shr_m mrs'') as [|q|q]; try reflexivity.
  destruct (e'' <=? B64.emax - B64.prec)%Z; reflexivity.
Qed.

Lemma div_core_nonneg (m1 m2 : positive) (e1 e2 : Z) :
  (0 <= fst (fst (SFdiv_core_binary B64.prec B64.emax
                    (Zpos m1) e1 (Zpos m2) e2)))%Z.
Proof.
  unfold SFdiv_core_binary.
  set (s := (e1 - e2 - _)%Z).
  set (m' := match s with Z0 => Zpos m1 | Zpos _ => Z.shiftl (Zpos m1) s
                     | Zneg _ => 0%Z end).
  assert (Hm : (0 <= m')%Z).
  { subst m'. destruct s; try lia. apply Z.shiftl_nonneg. lia. }
  pose proof (Z.div_pos m' (Zpos m2) Hm ltac:(lia)) as Hq.
  unfold Z.div in Hq.
  destruct (Z.div_eucl m' (Zpos m2)) as [q r]. exact Hq.
Qed.

Lemma SFdiv_signed (s : bool) (x : spec_float) (m : positive) (e : Z) :
  signed s x -> signed s (SFdiv B64.prec B64.emax x (S754_finite false m e)).
Proof.
  destruct x as [t|t| |t mx ex]; simpl; intro H; try contradiction;
    subst; try (now destruct s).
  pose proof (div_core_nonneg mx m ex e) as Hq.
  destruct (SFdiv_core_binary B64.prec B64.emax (Zpos mx) ex (Zpos m) e)
    as [[mz ez] lz].
  simpl in Hq. rewrite xorb_false_r.
  now apply binary_round_aux_signed.
Qed.

Lemma SFdiv_opp (x y : spec_float) :
  SFdiv B64.prec B64.emax (SFopp x) y
  = SFopp (SFdiv B64.prec B64.emax x y).
Proof.
  destruct x as [s|s| |s mx ex], y as [t|t| |t my ey]; simpl;
    try reflexivity; try (now destruct s, t).
  destruct (SFdiv_core_binary B64.prec B64.emax (Zpos mx) ex (Zpos my) ey)
    as [[mz ez] lz].
  rewrite <- binary_round_aux_opp. now destruct s, t.
Qed.

Lemma binary_round_opp (s : bool) (p : positive) (e : Z) :
  binary_round B64.prec B64.emax (negb s) p e
  = SFopp (binary_round B64.prec B64.emax s p e).
Proof.
  unfold binary_round.
  destruct (shl_align p e _) as [mz ez]. apply binary_round_aux_opp.
Qed.

Lemma of_Z_opp (z : Z) : z <> 0%Z -> B64.of_Z (- z) = SFopp (B64.of_Z z).
Proof.
  intro Hz. unfold B64.of_Z, binary_normalize.
  destruct z as [|p|p]; simpl Z.opp; cbv iota.
  - congruence.
  - apply (binary_round_opp false).
  - rewrite <- (binary_round_opp true). reflexivity.
Qed.

Lemma of_Z_signed (z : Z) :
  z <> 0%Z -> signed (z <? 0)%Z (B64.of_Z z).
Proof.
  intro Hz. unfold B64.of_Z, binary_normalize, binary_round.
  destruct z as [|p|p]; [congruence| |];
    destruct (shl_align p 0 _) as [mz ez];
    apply binary_round_aux_signed; lia.
Qed.

(** ** Values *)

Lemma magnitude_of_pos (m : positive) (e : Z) : (0 < B64.magnitude_of m e)%Q.
Proof.
  unfold B64.magnitude_of.
  apply Qmult_lt_0_compat; [reflexivity|].
  apply Qpower_0_lt. reflexivity.
Qed.

Lemma format_f_magnitude (d : nat) (x : Q) :
  (0 <= x)%Q ->
  exists n : Z, rounds_to d x n /\ Fmt.format_f d x = numeral d n.
Proof.
  intro Hx.
  exists (Fmt.round_half_even (Qabs x * inject_Z (10 ^ Z.of_nat d))).
  split; [split|].
  - apply round_half_even_near.
  - apply round_half_even_tie.
  - unfold Fmt.format_f.
    assert (H0 : Fmt.Qltb x 0 = false) by now apply Qltb_ge.
    rewrite H0. reflexivity.
Qed.

Lemma rounds_to_abs (d : nat) (x y : Q) (n : Z) :
  (Qabs x == Qabs y)%Q -> rounds_to d x n -> rounds_to d y n.
Proof.
  unfold rounds_to, nearest. intros H [H1 H2]. rewrite <- H. now split.
Qed.

(** The digits of a finite double. *)
Lemma format_float_finite (d : nat) (f : spec_float) (q : Q) :
  B64.ext_of (B64.Float f) = B64.Fin q ->
  exists n : Z,
    rounds_to d q n
    /\ B64.format_float d f = B64.minus_of f ++ numeral d n.
Proof.
  destruct f as [s|s| |s m e]; simpl; intro H; try discriminate H;
    injection H as <-.
  - destruct (format_f_magnitude d 0) as (n & Hn & E); [discriminate|].
    exists n. split; [exact Hn|]. now rewrite E.
  - pose proof (magnitude_of_pos m e) as Hpos.
    destruct (format_f_magnitude d (B64.magnitude_of m e)) as (n & Hn & E);
      [lra|].
    exists n. split; [|now rewrite E].
    apply (rounds_to_abs d (B64.magnitude_of m e)); [|exact Hn].
    destruct s; [rewrite Qabs_opp|]; reflexivity.
Qed.

Lemma abs_value (v : B64.num) (x : Q) :
  B64.ext_of v = B64.Fin x ->
  exists a : Q, B64.ext_of (B64.abs v) = B64.Fin a /\ (a == Qabs x)%Q.
Proof.
  destruct v as [z|[s|s| |s m e]]; simpl; intro H; try discriminate H;
    injection H as <-.
  - exists (inject_Z (Z.abs z)). split; [reflexivity|].
    unfold Qabs, inject_Z. reflexivity.
  - exists 0%Q. split; reflexivity.
  - exists (B64.magnitude_of m e). split; [reflexivity|].
    pose proof (magnitude_of_pos m e) as Hpos.
    destruct s; [rewrite Qabs_opp|]; symmetry; apply Qabs_pos; lra.
Qed.

Lemma ge_value (a : B64.num) (x : Q) (c : Z) :
  B64.ext_of a = B64.Fin x ->
  (B64.ge a (B64.Int c) = true <-> (inject_Z c <= x)%Q).
Proof.
  intro H. unfold B64.ge, B64.le, B64.lt, B64.eq. rewrite H. simpl.
  rewrite orb_true_iff, Qltb_lt, Qeq_bool_iff. split.
  - intros [Hl | He]; [apply Qlt_le_weak, Hl | rewrite He; apply Qle_refl].
  - intro Hle. apply Qle_lt_or_eq in Hle. exact Hle.
Qed.

Lemma ge_abs_value (v : B64.num) (x : Q) (c : Z) :
  B64.ext_of v = B64.Fin x ->
  (B64.ge (B64.abs v) (B64.Int c) = true <-> (inject_Z c <= Qabs x)%Q).
Proof.
  intro H. destruct (abs_value v x H) as (a & Ha & E).
  rewrite (ge_value _ a c Ha), E. reflexivity.
Qed.

Lemma mod1_nonzero_value (m : B64.num) (q : Q) :
  B64.ext_of m = B64.Fin q ->
  (B64.mod1_nonzero m = false <-> is_integer q).
Proof.
  intro H. unfold B64.mod1_nonzero. rewrite H.
  rewrite negb_false_iff. apply py_mod1_zero_iff.
Qed.

Lemma truediv_float (v c m : B64.num) :
  B64.truediv v c = Ok m -> exists f : spec_float, m = B64.Float f.
Proof.
  unfold B64.truediv, B64.bind.
  destruct v as [a|fa], c as [b|fb]; simpl.
  - destruct (b =? 0)%Z; [discriminate|].
    destruct (B64.is_infinite _); [discriminate|].
    intro H. injection H as <-. eexists; reflexivity.
  - destruct (B64.is_infinite (B64.of_Z a)); [discriminate|].
    destruct (B64.float_is_zero fb); [discriminate|].
    intro H. injection H as <-. eexists; reflexivity.
  - destruct (B64.is_infinite (B64.of_Z b)); [discriminate|].
    destruct (B64.float_is_zero _); [discriminate|].
    intro H. injection H as <-. eexists; reflexivity.
  - destruct (B64.float_is_zero fb); [discriminate|].
    intro H. injection H as <-. eexists; reflexivity.
Qed.

Lemma format_f_float (d : nat) (f : spec_float) :
  B64.format_f d (B64.Float f) = Ok (B64.format_float d f).
Proof. reflexivity. Qed.

(** The three branches of [fmt_compact]. *)
Lemma fmt_compact_millions_b64 (v : B64.num) (x : Q) :
  B64.ext_of v = B64.Fin x -> (1000000 <= Qabs x)%Q ->
  B64.fmt_compact v =
  B64.bind (B64.truediv v (B64.Int 1000000))
    (fun m =>
       if B64.mod1_nonzero m
       then B64.bind (B64.format_f 1 m) (fun t => Ok ("$" ++ t ++ "M"))
       else B64.bind (B64.format_f 0 m) (fun t => Ok ("$" ++ t ++ "M"))).
Proof.
  intros H Hx. unfold B64.fmt_compact.
  now rewrite (proj2 (ge_abs_value v x 1000000 H) Hx).
Qed.

Lemma fmt_compact_thousands_b64 (v : B64.num) (x : Q) :
  B64.ext_of v = B64.Fin x -> (1000 <= Qabs x)%Q -> (Qabs x < 1000000)%Q ->
  B64.fmt_compact v =
  B64.bind (B64.truediv v (B64.Int 1000))
    (fun k => B64.bind (B64.format_f 0 k) (fun t => Ok ("$" ++ t ++ "K"))).
Proof.
  intros H Hlo Hhi. unfold B64.fmt_compact.
  destruct (B64.ge (B64.abs v) (B64.Int 1000000)) eqn:E.
  { apply (ge_abs_value v x 1000000 H) in E. change (inject_Z 1000000) with 1000000%Q in E. lra. }
  now rewrite (proj2 (ge_abs_value v x 1000 H) Hlo).
Qed.

Lemma fmt_compact_units_b64 (v : B64.num) (x : Q) :
  B64.ext_of v = B64.Fin x -> (Qabs x < 1000)%Q ->
  B64.fmt_compact v =
  B64.bind (B64.format_f 0 v) (fun t => Ok ("$" ++ t)).
Proof.
  intros H Hx. unfold B64.fmt_compact.
  destruct (B64.ge (B64.abs v) (B64.Int 1000000)) eqn:E.
  { apply (ge_abs_value v x 1000000 H) in E. change (inject_Z 1000000) with 1000000%Q in E. lra. }
  destruct (B64.ge (B64.abs v) (B64.Int 1000)) eqn:E'.
  { apply (ge_abs_value v x 1000 H) in E'. change (inject_Z 1000) with 1000%Q in E'. lra. }
  reflexivity.
Qed.

Lemma numeral_1 (n : Z) :
  numeral 1 n = Fmt.show_nat (n / 10) ++ "." ++ Fmt.digits_fixed 1 (n mod 10).
Proof. reflexivity. Qed.


Lemma rounds_to_integer (q : Q) (n : Z) :
  is_integer q -> rounds_to 0 q n -> (inject_Z n == Qabs q)%Q.
Proof.
  intros [z Hz] [Hn _]. unfold nearest in Hn.
  assert (Ha : (Qabs q == inject_Z (Z.abs z))%Q).
  { rewrite Hz. unfold Qabs, inject_Z. reflexivity. }
  rewrite Ha in *. simpl Z.of_nat in Hn. rewrite Z.pow_0_r in Hn.
  apply Qabs_Qle_condition in Hn. destruct Hn as [H1 H2].
  unfold Qle, Qopp, Qminus, Qplus, Qmult, inject_Z in H1, H2.
  simpl in H1, H2.
  unfold Qeq, inject_Z. simpl. lia.
Qed.

(** The sign of a quotient by a positive integer is the sign of the
    dividend. *)
Lemma truediv_sign (v m : B64.num) (c : positive) (m0 : positive) (e0 : Z) :
  B64.of_Z (Zpos c) = S754_finite false m0 e0 ->
  B64.is_nan v = false ->
  B64.truediv v (B64.Int (Zpos c)) = Ok m ->
  B64.is_nan m = false /\ minus_sign m = minus_sign v.
Proof.
  intros Hc Hv.
  assert (Hto : B64.to_float (B64.Int (Zpos c)) = Ok (S754_finite false m0 e0))
    by (unfold B64.to_float; rewrite Hc; reflexivity).
  unfold B64.truediv.
  destruct v as [a|f].
  - change (Zpos c =? 0)%Z with false. cbv iota.
    destruct (B64.is_infinite _); [discriminate|].
    intro H. injection H as <-.
    assert (Hs : signed (a <? 0)%Z
                   (SFdiv B64.prec B64.emax (B64.exact_of_Z a)
                      (B64.exact_of_Z (Zpos c)))).
    { apply SFdiv_signed. now destruct a. }
    simpl B64.exact_of_Z in *.
    destruct (SFdiv B64.prec B64.emax (B64.exact_of_Z a)
                (S754_finite false c 0)) as [s|s| |s mm ee];
      simpl in Hs; try contradiction; subst s; split; reflexivity.
  - rewrite Hto. simpl. intro H. injection H as <-.
    assert (Hs : signed (B64.sign_bit f)
                   (SFdiv B64.prec B64.emax f (S754_finite false m0 e0))).
    { apply SFdiv_signed. destruct f; simpl in *; congruence. }
    destruct (SFdiv B64.prec B64.emax f (S754_finite false m0 e0))
      as [s|s| |s mm ee];
      simpl in Hs; try contradiction; subst s; split; reflexivity.
Qed.

Lemma fin_not_nan (v : B64.num) (x : Q) :
  B64.ext_of v = B64.Fin x -> B64.is_nan v = false.
Proof. destruct v as [z|[s|s| |s m e]]; simpl; congruence. Qed.

Lemma In_range (n i : Z) : (0 <= i < n)%Z -> In i (range n).
Proof.
  intro H. unfold range. apply in_map_iff.
  exists (Z.to_nat i). split; [lia|]. apply in_seq. lia.
Qed.

Lemma fmt_compact_small_int (z : Z) :
  (-1000 < z < 1000)%Z ->
  B64.fmt_compact (B64.Int z) =
  Ok ("$" ++ minus_sign (B64.Int z) ++ Fmt.show_nat (Z.abs z)).
Proof.
  intro Hz.
  assert (Hall : forallb small_int_ok (range 1999) = true)
    by (vm_compute; reflexivity).
  rewrite forallb_forall in Hall.
  assert (Hin : In (z + 999)%Z (range 1999)) by (apply In_range; lia).
  specialize (Hall _ Hin).
  unfold small_int_ok in Hall.
  replace (z + 999 - 999)%Z with z in Hall by lia.
  destruct (B64.fmt_compact (B64.Int z)) as [s|e]; [|discriminate].
  apply String.eqb_eq in Hall. now subst s.
Qed.

(** C4.  On doubles and integers.  For a finite value of magnitude at
    least a million, let [m] be the quotient by 1,000,000 as the code
    computes it: when [m] is a whole number the text is the dollar sign,
    the sign, the digits of [m] and [M]; otherwise [m] is printed with one
    decimal, rounded to nearest, ties to even.  From a thousand up to a
    million the computed quotient by 1,000 is rounded to an integer and
    followed by [K]; below a thousand the value itself is rounded to an
    integer.  The four worked values of the specification come out as
    stated, as integers and as floats. *)
Theorem b64_fmt_compact_by_magnitude :
  (forall (v m : B64.num) (x q : Q),
     B64.ext_of v = B64.Fin x -> (1000000 <= Qabs x)%Q ->
     B64.truediv v (B64.Int 1000000) = Ok m ->
     B64.ext_of m = B64.Fin q ->
     (is_integer q ->
      exists n : Z,
        (inject_Z n == Qabs q)%Q
        /\ B64.fmt_compact v =
           Ok ("$" ++ minus_sign v ++ Fmt.show_nat n ++ "M"))
     /\ (~ is_integer q ->
         exists n : Z,
           rounds_to 1 q n
           /\ B64.fmt_compact v =
              Ok ("$" ++ minus_sign v ++ Fmt.show_nat (n / 10) ++ "."
                    ++ Fmt.digits_fixed 1 (n mod 10) ++ "M")))
  /\ (forall (v k : B64.num) (x q : Q),
        B64.ext_of v = B64.Fin x ->
        (1000 <= Qabs x)%Q -> (Qabs x < 1000000)%Q ->
        B64.truediv v (B64.Int 1000) = Ok k ->
        B64.ext_of k = B64.Fin q ->
        exists n : Z,
          rounds_to 0 q n
          /\ B64.fmt_compact v =
             Ok ("$" ++ minus_sign v ++ Fmt.show_nat n ++ "K"))
  /\ (forall (f : spec_float) (x : Q),
        B64.ext_of (B64.Float f) = B64.Fin x -> (Qabs x < 1000)%Q ->
        exists n : Z,
          rounds_to 0 x n
          /\ B64.fmt_compact (B64.Float f) =
             Ok ("$" ++ B64.minus_of f ++ Fmt.show_nat n))
  /\ (forall z : Z,
        (-1000 < z < 1000)%Z ->
        B64.fmt_compact (B64.Int z) =
        Ok ("$" ++ minus_sign (B64.Int z) ++ Fmt.show_nat (Z.abs z)))
  /\ B64.fmt_compact (B64.Int 2300000) = Ok "$2.3M"
  /\ B64.fmt_compact (B64.Int 1000000) = Ok "$1M"
  /\ B64.fmt_compact (B64.Int 45000) = Ok "$45K"
  /\ B64.fmt_compact (B64.Int 7) = Ok "$7"
  /\ B64.fmt_compact (B64.Float (B64.decimal 23 5)) = Ok "$2.3M"
  /\ B64.fmt_compact (B64.Float (B64.decimal 1 6)) = Ok "$1M"
  /\ B64.fmt_compact (B64.Float (B64.decimal 45 3)) = Ok "$45K"
  /\ B64.fmt_compact (B64.Float (B64.decimal 7 0)) = Ok "$7".
Proof.
  split; [|split; [|split; [|split]]].
  - intros v m x q Hv Hx Hm Hq.
    rewrite (fmt_compact_millions_b64 v x Hv Hx), Hm. simpl B64.bind.
    destruct (truediv_sign v m 1000000 _ _ eq_refl (fin_not_nan v x Hv) Hm)
      as [_ Hs].
    destruct (truediv_float _ _ _ Hm) as [f ->].
    split; intro Hi.
    + rewrite (proj2 (mod1_nonzero_value _ q Hq) Hi).
      destruct (format_float_finite 0 f q Hq) as (n & Hn & E).
      exists n. split; [now apply rounds_to_integer|].
      rewrite format_f_float. simpl B64.bind.
      rewrite E, numeral_0, <- Hs. simpl minus_sign.
      now rewrite !str_app_assoc.
    + destruct (B64.mod1_nonzero (B64.Float f)) eqn:Hb.
      2:{ apply (mod1_nonzero_value _ q Hq) in Hb. contradiction. }
      destruct (format_float_finite 1 f q Hq) as (n & Hn & E).
      exists n. split; [exact Hn|].
      rewrite format_f_float. simpl B64.bind.
      rewrite E, numeral_1, <- Hs. simpl minus_sign.
      now rewrite !str_app_assoc.
  - intros v k x q Hv Hlo Hhi Hk Hq.
    rewrite (fmt_compact_thousands_b64 v x Hv Hlo Hhi), Hk. simpl B64.bind.
    destruct (truediv_sign v k 1000 _ _ eq_refl (fin_not_nan v x Hv) Hk)
      as [_ Hs].
    destruct (truediv_float _ _ _ Hk) as [f ->].
    destruct (format_float_finite 0 f q Hq) as (n & Hn & E).
    exists n. split; [exact Hn|].
    rewrite format_f_float. simpl B64.bind.
    rewrite E, numeral_0, <- Hs. simpl minus_sign.
    now rewrite !str_app_assoc.
  - intros f x Hv Hx.
    rewrite (fmt_compact_units_b64 _ x Hv Hx).
    destruct (format_float_finite 0 f x Hv) as (n & Hn & E).
    exists n. split; [exact Hn|].
    rewrite format_f_float. simpl B64.bind.
    now rewrite E, numeral_0.
  - exact fmt_compact_small_int.
  - repeat split; vm_compute; reflexivity.
Qed.

Lemma b64_fmt_compact_by_magnitude_witness :
  (exists n : Z,
     rounds_to 1 (B64.magnitude_of 5179139571476070 (-51)) n
     /\ B64.fmt_compact (B64.Int 2300000) =
        Ok ("$" ++ minus_sign (B64.Int 2300000) ++ Fmt.show_nat (n / 10)
              ++ "." ++ Fmt.digits_fixed 1 (n mod 10) ++ "M"))
  /\ (exists n : Z,
        rounds_to 0 (- B64.magnitude_of 6333186975989760 (-47)) n
        /\ B64.fmt_compact (B64.Float (B64.decimal (-45000) 0)) =
           Ok ("$" ++ minus_sign (B64.Float (B64.decimal (-45000) 0))
                 ++ Fmt.show_nat n ++ "K"))
  /\ (exists n : Z,
        rounds_to 0 (B64.magnitude_of 7881299347898368 (-50)) n
        /\ B64.fmt_compact (B64.Float (B64.decimal 7 0)) =
           Ok ("$" ++ B64.minus_of (B64.decimal 7 0) ++ Fmt.show_nat n)).
Proof.
  destruct b64_fmt_compact_by_magnitude as (HM & HK & HU & _).
  split; [|split].
  - apply (HM (B64.Int 2300000)
              (B64.Float (S754_finite false 5179139571476070 (-51)))
              2300000%Q).
    + reflexivity.
    + vm_compute. discriminate.
    + vm_compute. reflexivity.
    + reflexivity.
    + intros [z Hz].
      assert (E : B64.magnitude_of 5179139571476070 (-51)
                  = 5179139571476070 # 2251799813685248)
        by (vm_compute; reflexivity).
      rewrite E in Hz. unfold Qeq, inject_Z in Hz.
      cbn [Qnum Qden] in Hz. lia.
  - apply (HK (B64.Float (B64.decimal (-45000) 0))
              (B64.Float (S754_finite true 6333186975989760 (-47)))
              (- B64.magnitude_of 6184752906240000 (-37))%Q).
    + vm_compute. reflexivity.
    + vm_compute. discriminate.
    + vm_compute. reflexivity.
    + vm_compute. reflexivity.
    + reflexivity.
  - apply (HU (B64.decimal 7 0) (B64.magnitude_of 7881299347898368 (-50))).
    + vm_compute. reflexivity.
    + vm_compute. reflexivity.
Defined.

(** ** Trend badges on doubles *)






(** ** Negative values on doubles *)

Lemma abs_neg (v : B64.num) : B64.abs (B64.neg v) = B64.abs v.
Proof.
  destruct v as [z|f]; simpl.
  - now rewrite Z.abs_opp.
  - now destruct f.
Qed.

Lemma negative_signed (v : B64.num) :
  B64.lt v (B64.Int 0) = true ->
  match v with
  | B64.Int z => (z < 0)%Z
  | B64.Float f => signed true f
  end.
Proof.
  unfold B64.lt. destruct v as [z|[s|s| |s m e]]; simpl.
  - rewrite Qltb_lt. unfold Qlt, inject_Z.
    cbn [Qnum Qden]. lia.
  - discriminate.
  - now destruct s.
  - discriminate.
  - destruct s; [reflexivity|].
    rewrite Qltb_lt. intro H. exfalso.
    pose proof (magnitude_of_pos m e). unfold inject_Z in H. lra.
Qed.

Lemma is_infinite_opp (f : spec_float) :
  B64.is_infinite (SFopp f) = B64.is_infinite f.
Proof. now destruct f. Qed.

Lemma float_is_zero_opp (f : spec_float) :
  B64.float_is_zero (SFopp f) = B64.float_is_zero f.
Proof. now destruct f. Qed.

Lemma exact_of_Z_opp (z : Z) :
  z <> 0%Z -> B64.exact_of_Z (- z) = SFopp (B64.exact_of_Z z).
Proof. destruct z; simpl; congruence. Qed.

Lemma to_float_neg (v : B64.num) :
  B64.lt v (B64.Int 0) = true ->
  B64.to_float (B64.neg v) = map_result SFopp (B64.to_float v).
Proof.
  intro Hv. apply negative_signed in Hv.
  destruct v as [z|f]; [|reflexivity].
  unfold B64.neg, B64.to_float.
  rewrite of_Z_opp by lia. rewrite is_infinite_opp.
  now destruct (B64.is_infinite (B64.of_Z z)).
Qed.

Lemma truediv_neg (v : B64.num) (c : positive) :
  B64.lt v (B64.Int 0) = true ->
  B64.truediv (B64.neg v) (B64.Int (Zpos c))
  = map_result B64.neg (B64.truediv v (B64.Int (Zpos c))).
Proof.
  intro Hv. pose proof (negative_signed v Hv) as Hs.
  destruct v as [a|f].
  - unfold B64.neg, B64.truediv.
    change (Zpos c =? 0)%Z with false. cbv iota.
    rewrite exact_of_Z_opp by lia. rewrite SFdiv_opp, is_infinite_opp.
    now destruct (B64.is_infinite _).
  - unfold B64.neg, B64.truediv, B64.bind.
    change (B64.to_float (B64.Float (SFopp f))) with (Ok (SFopp f)).
    change (B64.to_float (B64.Float f)) with (Ok f). cbv iota beta.
    destruct (B64.to_float (B64.Int (Zpos c))) as [b|e]; [|reflexivity].
    destruct (B64.float_is_zero b); [reflexivity|].
    simpl. now rewrite SFdiv_opp.
Qed.

Lemma mod1_nonzero_opp (f : spec_float) :
  B64.mod1_nonzero (B64.Float (SFopp f)) = B64.mod1_nonzero (B64.Float f).
Proof.
  unfold B64.mod1_nonzero.
  destruct f as [s|s| |s m e]; simpl; try reflexivity.
  f_equal. destruct s; simpl.
  - symmetry. apply py_mod1_test_opp.
  - apply py_mod1_test_opp.
Qed.

Lemma format_float_opp (d : nat) (f : spec_float) :
  signed true f ->
  B64.format_float d f = "-" ++ B64.format_float d (SFopp f).
Proof.
  destruct f as [s|s| |s m e]; simpl; intro H; try contradiction;
    now subst s.
Qed.

Lemma truediv_negative_signed (v m : B64.num) (c m0 : positive) (e0 : Z) :
  B64.of_Z (Zpos c) = S754_finite false m0 e0 ->
  B64.lt v (B64.Int 0) = true ->
  B64.truediv v (B64.Int (Zpos c)) = Ok m ->
  exists f : spec_float, m = B64.Float f /\ signed true f.
Proof.
  intros Hc Hv Hm.
  assert (Hn : B64.is_nan v = false).
  { apply negative_signed in Hv. destruct v as [z|[s|s| |s mm e]];
      simpl in *; try reflexivity; contradiction. }
  destruct (truediv_sign v m c m0 e0 Hc Hn Hm) as [Hnan Hs].
  destruct (truediv_float _ _ _ Hm) as [f ->].
  exists f. split; [reflexivity|].
  assert (Hminus : minus_sign v = "-").
  { apply negative_signed in Hv. destruct v as [z|g]; simpl.
    - now rewrite (proj2 (Z.ltb_lt z 0) Hv).
    - destruct g as [s|s| |s mm e]; simpl in Hv; try contradiction;
        now subst s. }
  rewrite Hminus in Hs. simpl in Hs, Hnan.
  destruct f as [s|s| |s mm e]; try discriminate Hnan;
    unfold B64.minus_of in Hs; simpl in Hs; destruct s;
    try discriminate Hs; reflexivity.
Qed.

(** C5, counterexample.  The text for -45,000 is [$-45K]: the minus sign
    of a negative value is in the output, after the dollar sign. *)
Lemma b64_fmt_compact_negative_shows_minus :
  B64.fmt_compact (B64.Int (-45000)) = Ok "$-45K"
  /\ B64.fmt_compact (B64.Float (B64.decimal (-45000) 0)) = Ok "$-45K"
  /\ has_minus "$-45K" = true
  /\ B64.fmt_compact (B64.Int 45000) = Ok "$45K".
Proof. repeat split; vm_compute; reflexivity. Qed.

(** C5, as amended.  For a negative value the branch is chosen by the
    absolute value, and the text is the text of the opposite, positive
    value with a minus sign inserted after the dollar sign; where the
    positive value raises, so does the negative one. *)
Theorem b64_fmt_compact_negative_sign_after_dollar (v : B64.num) :
  B64.lt v (B64.Int 0) = true ->
  B64.abs v = B64.abs (B64.neg v)
  /\ (forall t : string,
        B64.fmt_compact (B64.neg v) = Ok t ->
        exists body : string,
          t = "$" ++ body /\ B64.fmt_compact v = Ok ("$-" ++ body))
  /\ (forall e : exn,
        B64.fmt_compact (B64.neg v) = Raise e ->
        B64.fmt_compact v = Raise e).
Proof.
  intro Hv. split; [symmetry; apply abs_neg|].
  unfold B64.fmt_compact. rewrite abs_neg.
  destruct (B64.ge (B64.abs v) (B64.Int 1000000)).
  { rewrite (truediv_neg v 1000000 Hv).
    destruct (B64.truediv v (B64.Int 1000000)) as [m|e0] eqn:Hm;
      [|split; [discriminate | exact (fun e H => H)]].
    destruct (truediv_negative_signed v m 1000000 _ _ eq_refl Hv Hm)
      as (f & -> & Hs).
    simpl map_result. simpl B64.bind. rewrite mod1_nonzero_opp.
    destruct (B64.mod1_nonzero (B64.Float f));
      rewrite (format_float_opp _ f Hs);
      (split; [|discriminate]); intros t H; injection H as <-;
      eexists; split; reflexivity. }
  destruct (B64.ge (B64.abs v) (B64.Int 1000)).
  { rewrite (truediv_neg v 1000 Hv).
    destruct (B64.truediv v (B64.Int 1000)) as [m|e0] eqn:Hm;
      [|split; [discriminate | exact (fun e H => H)]].
    destruct (truediv_negative_signed v m 1000 _ _ eq_refl Hv Hm)
      as (f & -> & Hs).
    simpl map_result. simpl B64.bind.
    rewrite (format_float_opp _ f Hs).
    split; [|discriminate]. intros t H. injection H as <-.
    eexists; split; reflexivity. }
  unfold B64.format_f. rewrite (to_float_neg v Hv).
  pose proof (negative_signed v Hv) as Hs.
  assert (Hf : forall f, B64.to_float v = Ok f -> signed true f).
  { destruct v as [z|g]; simpl.
    - destruct (B64.is_infinite (B64.of_Z z)); [discriminate|].
      intros f H. injection H as <-.
      pose proof (of_Z_signed z ltac:(lia)) as Hz.
      now rewrite (proj2 (Z.ltb_lt z 0) Hs) in Hz.
    - intros f H. now injection H as <-. }
  destruct (B64.to_float v) as [f|e0];
    [|split; [discriminate | exact (fun e H => H)]].
  simpl map_result. simpl B64.bind.
  rewrite (format_float_opp _ f (Hf f eq_refl)).
  split; [|discriminate]. intros t H. injection H as <-.
  eexists; split; reflexivity.
Qed.

Lemma b64_fmt_compact_negative_sign_after_dollar_witness :
  exists body : string,
    "$45K" = "$" ++ body
    /\ B64.fmt_compact (B64.Int (-45000)) = Ok ("$-" ++ body).
Proof.
  destruct (b64_fmt_compact_negative_sign_after_dollar (B64.Int (-45000)))
    as (_ & H & _).
  - vm_compute. reflexivity.
  - apply (H "$45K"). vm_compute. reflexivity.
Defined.

(** ** Axis ticks on doubles *)

(** Well inside a decade the exponent is determined. *)
Lemma accurate_decade (log10_floor : Q -> Z) (m : positive) (e k : Z) :
  B64.accurate log10_floor ->
  (10 ^ k * (1 + B64.tolerance) <= B64.magnitude_of m e)%Q ->
  (B64.magnitude_of m e < 10 ^ (k + 1) * (1 - B64.tolerance))%Q ->
  log10_floor (B64.magnitude_of m e) = k.
Proof.
  intros Hacc Hlo Hhi. destruct (Hacc m e) as [Ha Hb].
  set (x := B64.magnitude_of m e) in *.
  set (K := log10_floor x) in *.
  assert (H10 : (1 <= 10)%Q) by discriminate.
  assert (Ht : (0 < B64.tolerance < 1)%Q) by (split; reflexivity).
  destruct (Z.lt_trichotomy K k) as [H | [H | H]]; [|exact H|]; exfalso.
  - pose proof (Qpower_le_compat_l 10 (K + 1) k ltac:(lia) H10) as Hp.
    assert (Hb' : (10 ^ (K + 1) * (1 + B64.tolerance)
                   <= 10 ^ k * (1 + B64.tolerance))%Q).
    { apply Qmult_le_compat_r; [exact Hp | lra]. }
    lra.
  - pose proof (Qpower_le_compat_l 10 (k + 1) K ltac:(lia) H10) as Hp.
    assert (Ha' : (10 ^ (k + 1) * (1 - B64.tolerance)
                   <= 10 ^ K * (1 - B64.tolerance))%Q).
    { apply Qmult_le_compat_r; [exact Hp | lra]. }
    lra.
Qed.

Lemma floor_log10_decade (log10_floor : Q -> Z) (m : positive) (e k : Z) :
  B64.accurate log10_floor ->
  (10 ^ k * (1 + B64.tolerance) <= B64.magnitude_of m e)%Q ->
  (B64.magnitude_of m e < 10 ^ (k + 1) * (1 - B64.tolerance))%Q ->
  B64.floor_log10 log10_floor (B64.Float (S754_finite false m e)) = Ok k.
Proof.
  intros Hacc Hlo Hhi. unfold B64.floor_log10.
  change (B64.ext_of (B64.Float (S754_finite false m e)))
    with (B64.Fin (B64.magnitude_of m e)).
  cbv iota.
  destruct (Qle_bool (B64.magnitude_of m e) 0) eqn:E.
  { apply Qle_bool_iff in E. pose proof (magnitude_of_pos m e). lra. }
  f_equal. now apply accurate_decade.
Qed.

(** The exact logarithm is accurate. *)
Lemma floor_log10_accurate : B64.accurate floor_log10.
Proof.
  intros m e x k.
  destruct (floor_log10_spec x (magnitude_of_pos m e)) as [Hlo Hhi].
  fold k in Hlo, Hhi.
  pose proof (Qpow10_pos k) as Hk. pose proof (Qpow10_pos (k + 1)) as Hk1.
  assert (Ht : (0 < B64.tolerance < 1)%Q) by (split; reflexivity).
  split.
  - apply Qle_trans with (10 ^ k)%Q; [|exact Hlo].
    rewrite <- (Qmult_1_r (10 ^ k)) at 2.
    apply Qmult_le_l; [exact Hk | lra].
  - apply Qlt_le_trans with (10 ^ (k + 1))%Q; [exact Hhi|].
    rewrite <- (Qmult_1_r (10 ^ (k + 1))) at 1.
    apply Qmult_le_l; [exact Hk1 | lra].
Qed.

(** C1.  With any logarithm that is [B64.accurate]: for a maximum that is
    not positive the result is the single tick 0 with the label [$0], and
    for 437 the five ticks are 0, 200, 400, 600, 800.  For the double
    [0.05 + 0.07], which is [0.12000000000000001], the five ticks are 0,
    0.03, 0.06, 0.09 and 0.12: the top tick is below the maximum.  The
    quotient of the raw step [0.030000000000000002] by the magnitude
    [0.01] is rounded to 3 before [math.ceil] is applied. *)
Theorem b64_make_y_ticks_top_tick_below_max (log10_floor : Q -> Z) :
  B64.accurate log10_floor ->
  (forall (max_val : B64.num) (n : Z),
     B64.le max_val (B64.Int 0) = true ->
     B64.make_y_ticks log10_floor max_val n = Ok ([B64.Int 0], ["$0"]))
  /\ B64.make_y_ticks log10_floor (B64.Int 437) default_n =
     Ok ([B64.Int 0; B64.Int 200; B64.Int 400; B64.Int 600; B64.Int 800],
         ["$0"; "$200"; "$400"; "$600"; "$800"])
  /\ twelve_cents = B64.decimal 12000000000000001 (-17)
  /\ B64.make_y_ticks log10_floor (B64.Float twelve_cents) default_n =
     Ok ([B64.Float (B64.decimal 0 0);
          B64.Float (B64.decimal 3 (-2));
          B64.Float (B64.decimal 6 (-2));
          B64.Float (B64.decimal 9 (-2));
          B64.Float (B64.decimal 12 (-2))],
         ["$0"; "$0"; "$0"; "$0"; "$0"])
  /\ B64.lt (B64.Float (B64.decimal 12 (-2))) (B64.Float twelve_cents) = true.
Proof.
  intro Hacc. split; [|split; [|split; [|split]]].
  - intros max_val n H. unfold B64.make_y_ticks. now rewrite H.
  - unfold B64.make_y_ticks, default_n.
    change (B64.le (B64.Int 437) (B64.Int 0)) with false. cbv iota.
    assert (Hraw : B64.truediv (B64.Int 437) (B64.Int (5 - 1))
                   = Ok (B64.Float (S754_finite false 7687785301409792 (-46))))
      by (vm_compute; reflexivity).
    rewrite Hraw. cbn [B64.bind].
    rewrite (floor_log10_decade log10_floor _ _ 2 Hacc);
      [| vm_compute; congruence | vm_compute; reflexivity].
    vm_compute. reflexivity.
  - vm_compute. reflexivity.
  - unfold B64.make_y_ticks, default_n.
    assert (Hle : B64.le (B64.Float twelve_cents) (B64.Int 0) = false)
      by (vm_compute; reflexivity).
    rewrite Hle.
    assert (Hraw : B64.truediv (B64.Float twelve_cents) (B64.Int (5 - 1))
                   = Ok (B64.Float (S754_finite false 8646911284551353 (-58))))
      by (vm_compute; reflexivity).
    rewrite Hraw. cbn [B64.bind].
    rewrite (floor_log10_decade log10_floor _ _ (-2) Hacc);
      [| vm_compute; congruence | vm_compute; reflexivity].
    vm_compute. reflexivity.
  - vm_compute. reflexivity.
Qed.

Lemma b64_make_y_ticks_top_tick_below_max_witness :
  B64.make_y_ticks floor_log10 (B64.Float twelve_cents) default_n =
  Ok ([B64.Float (B64.decimal 0 0);
       B64.Float (B64.decimal 3 (-2));
       B64.Float (B64.decimal 6 (-2));
       B64.Float (B64.decimal 9 (-2));
       B64.Float (B64.decimal 12 (-2))],
      ["$0"; "$0"; "$0"; "$0"; "$0"])
  /\ B64.lt (B64.Float (B64.decimal 12 (-2))) (B64.Float twelve_cents) = true.
Proof.
  destruct (b64_make_y_ticks_top_tick_below_max floor_log10
              floor_log10_accurate) as (_ & _ & _ & H1 & H2).
  split; [exact H1 | exact H2].
Defined.

(** X6.  The category chart falls back to the maximum 1 when there is no
    category.  With any logarithm that is [B64.accurate] its five ticks
    are then 0, 0.30000000000000004, 0.6000000000000001,
    0.9000000000000001 and 1.2000000000000002, and their labels are [$0],
    [$0], [$1], [$1], [$1]: the integer labels no longer tell the ticks
    apart. *)
Theorem b64_make_y_ticks_fallback_labels (log10_floor : Q -> Z) :
  B64.accurate log10_floor ->
  B64.make_y_ticks log10_floor (B64.Int 1) 5 =
  Ok ([B64.Float (B64.decimal 0 0);
       B64.Float (B64.decimal 30000000000000004 (-17));
       B64.Float (B64.decimal 6000000000000001 (-16));
       B64.Float (B64.decimal 9000000000000001 (-16));
       B64.Float (B64.decimal 12000000000000002 (-16))],
      ["$0"; "$0"; "$1"; "$1"; "$1"]).
Proof.
  intro Hacc. unfold B64.make_y_ticks.
  change (B64.le (B64.Int 1) (B64.Int 0)) with false. cbv iota.
  assert (Hraw : B64.truediv (B64.Int 1) (B64.Int (5 - 1))
                 = Ok (B64.Float (S754_finite false 4503599627370496 (-54))))
    by (vm_compute; reflexivity).
  rewrite Hraw. cbn [B64.bind].
  rewrite (floor_log10_decade log10_floor _ _ (-1) Hacc);
    [| vm_compute; congruence | vm_compute; reflexivity].
  vm_compute. reflexivity.
Qed.

Lemma b64_make_y_ticks_fallback_labels_witness :
  B64.make_y_ticks floor_log10 (B64.Int 1) 5 =
  Ok ([B64.Float (B64.decimal 0 0);
       B64.Float (B64.decimal 30000000000000004 (-17));
       B64.Float (B64.decimal 6000000000000001 (-16));
       B64.Float (B64.decimal 9000000000000001 (-16));
       B64.Float (B64.decimal 12000000000000002 (-16))],
      ["$0"; "$0"; "$1"; "$1"; "$1"]).
Proof.
  exact (b64_make_y_ticks_fallback_labels floor_log10 floor_log10_accurate).
Defined.

(** X4.  At a million or more the decimal is dropped only when the
    computed mantissa is whole: a mantissa that is not whole but lies less
    than 0.05 from the whole number [j] is printed with [.0], as in
    [$2.0M] for 1,960,000. *)
Theorem b64_fmt_compact_keeps_point_zero (v m : B64.num) (x q : Q) (j : Z) :
  B64.ext_of v = B64.Fin x -> (1000000 <= Qabs x)%Q ->
  B64.truediv v (B64.Int 1000000) = Ok m ->
  B64.ext_of m = B64.Fin q ->
  ~ is_integer q ->
  (Qabs (Qabs q - inject_Z j) < 1 # 20)%Q ->
  B64.fmt_compact v = Ok ("$" ++ minus_sign v ++ Fmt.show_nat j ++ ".0M").
Proof.
  intros Hv Hx Hm Hq Hni Hj.
  rewrite (fmt_compact_millions_b64 v x Hv Hx), Hm. simpl B64.bind.
  destruct (truediv_sign v m 1000000 _ _ eq_refl (fin_not_nan v x Hv) Hm)
    as [_ Hs].
  destruct (truediv_float _ _ _ Hm) as [f ->].
  destruct (B64.mod1_nonzero (B64.Float f)) eqn:Hb.
  2:{ apply (mod1_nonzero_value _ q Hq) in Hb. contradiction. }
  destruct (format_float_finite 1 f q Hq) as (n & [Hn _] & E).
  assert (Hn10 : n = (10 * j)%Z).
  { unfold nearest in Hn. change (10 ^ Z.of_nat 1)%Z with 10%Z in Hn.
    change (inject_Z 10) with 10%Q in Hn.
    apply inject_Z_lt_1. rewrite inject_Z_mult.
    change (inject_Z 10) with 10%Q.
    apply Qabs_Qle_condition in Hn. apply Qabs_Qlt_condition in Hj.
    apply Qabs_Qlt_condition. destruct Hn, Hj. split; lra. }
  subst n. rewrite format_f_float. simpl B64.bind.
  rewrite E, numeral_1, <- Hs.
  rewrite Z.mul_comm, Z.div_mul, Z.mod_mul by lia.
  simpl minus_sign. simpl Fmt.digits_fixed.
  now rewrite !str_app_assoc.
Qed.

Lemma b64_fmt_compact_keeps_point_zero_witness :
  B64.fmt_compact (B64.Int 1960000) =
  Ok ("$" ++ minus_sign (B64.Int 1960000) ++ Fmt.show_nat 2 ++ ".0M").
Proof.
  apply (b64_fmt_compact_keeps_point_zero (B64.Int 1960000)
           (B64.Float (S754_finite false 8827055269646172 (-52)))
           1960000%Q (B64.magnitude_of 8827055269646172 (-52)) 2).
  - reflexivity.
  - vm_compute. discriminate.
  - vm_compute. reflexivity.
  - reflexivity.
  - intros [z Hz].
    assert (E : B64.magnitude_of 8827055269646172 (-52)
                = 8827055269646172 # 4503599627370496)
      by (vm_compute; reflexivity).
    rewrite E in Hz. unfold Qeq, inject_Z in Hz.
    cbn [Qnum Qden] in Hz. lia.
  - vm_compute. reflexivity.
Defined.

(** X21.  [fmt_compact] returns a text for every float: an infinity
    prints as [$infM] or [$-infM], NaN as [$nan], the negative zero as
    [$-0].  An integer beyond the doubles raises [OverflowError]. *)
Theorem b64_fmt_compact_float_total :
  (forall f : spec_float,
     exists t : string, B64.fmt_compact (B64.Float f) = Ok t)
  /\ B64.fmt_compact (B64.Float (S754_infinity false)) = Ok "$infM"
  /\ B64.fmt_compact (B64.Float (S754_infinity true)) = Ok "$-infM"
  /\ B64.fmt_compact (B64.Float S754_nan) = Ok "$nan"
  /\ B64.fmt_compact (B64.Float (S754_zero true)) = Ok "$-0"
  /\ B64.fmt_compact (B64.Int (10 ^ 400)) = Raise OverflowError.
Proof.
  split; [|repeat split; vm_compute; reflexivity].
  intro f. unfold B64.fmt_compact.
  assert (Hdiv : forall c m0 e0,
             B64.of_Z (Zpos c) = S754_finite false m0 e0 ->
             B64.truediv (B64.Float f) (B64.Int (Zpos c)) =
             Ok (B64.Float (SFdiv B64.prec B64.emax f
                              (S754_finite false m0 e0)))).
  { intros c m0 e0 Hc. unfold B64.truediv, B64.to_float, B64.bind.
    rewrite Hc. reflexivity. }
  rewrite (Hdiv 1000000%positive _ _ eq_refl).
  rewrite (Hdiv 1000%positive _ _ eq_refl).
  destruct (B64.ge _ _); [|destruct (B64.ge _ _)]; cbn [B64.bind].
  - destruct (B64.mod1_nonzero _); rewrite format_f_float; cbn [B64.bind];
      eexists; reflexivity.
  - rewrite format_f_float. cbn [B64.bind]. eexists; reflexivity.
  - rewrite format_f_float. cbn [B64.bind]. eexists; reflexivity.
Qed.

(** X22.  The digits are those of the double that the code computes,
    not of the decimal numeral: 1,150,000 and 1,050,000 both print as
    [$1.1M], since the doubles of 1.15 and 1.05 lie below and above the
    midpoint; 1,250,000 and 1,350,000 print as [$1.2M] and [$1.4M].
    Likewise the change from 160 to 183 prints as 14.37%: the computed
    percentage is the double just below 14.375. *)
Theorem b64_fmt_compact_rounds_the_double :
  B64.fmt_compact (B64.Int 1150000) = Ok "$1.1M"
  /\ B64.fmt_compact (B64.Int 1050000) = Ok "$1.1M"
  /\ B64.fmt_compact (B64.Int 1250000) = Ok "$1.2M"
  /\ B64.fmt_compact (B64.Int 1350000) = Ok "$1.4M"
  /\ B64.trend_badge (Some (B64.Int 183)) (Some (B64.Int 160)) false
     = Ok (span "#16a34a" "↑ 14.37%")
  /\ B64.pct_change (B64.Int 183) (B64.Int 160)
     = Ok (B64.Float (S754_finite false 8092405580431359 (-49))).
Proof. repeat split; vm_compute; reflexivity. Qed.
